(** * DynamicBlacklist: a shallow embedding of [util/DynamicBlacklist.py]

    The Python module scrapes a download page for the Azure IP range file,
    expands CIDR blocks into sets of address strings and searches a decoded
    range document for the categories whose blocks contain an address.

    The development follows the file top to bottom.  The parts of the Python
    standard library the module calls ([ipaddress], [re.findall], [str] of a
    [bytes] object) are embedded function by function from CPython 3.11, and
    the [requests] transport is a section variable. *)

From Stdlib Require Import ZArith String Ascii List Lia Permutation.
From stdpp Require Import base decidable list list_numbers sets gmap strings pretty.

Open Scope Z_scope.

(** ** Exceptions and results *)

(** The exception classes that can reach the module.  [AddressValueError] and
    [NetmaskValueError] both derive from [ValueError]; [HTTPError] derives
    from [RequestException]; [ScrapeError] is the module's own class. *)
Inductive exn : Set :=
| ValueError
| AddressValueError
| NetmaskValueError
| ScrapeError
| RequestException
| HTTPError.

Global Instance exn_eq_dec : EqDecision exn.
Proof. solve_decision. Defined.

(** [isinstance e cls]: does an [except cls] clause catch [e]? *)
Definition isinstance (e cls : exn) : bool :=
  match cls, e with
  | ValueError, (ValueError | AddressValueError | NetmaskValueError) => true
  | AddressValueError, AddressValueError => true
  | NetmaskValueError, NetmaskValueError => true
  | ScrapeError, ScrapeError => true
  | RequestException, (RequestException | HTTPError) => true
  | HTTPError, HTTPError => true
  | _, _ => false
  end.

Inductive result (A : Type) : Type :=
| Ok (a : A)
| Raise (e : exn).
Global Arguments Ok {A} a.
Global Arguments Raise {A} e.

Global Instance result_bind : MBind result := fun A B k r =>
  match r with
  | Ok a => k a
  | Raise e => Raise e
  end.

(** [try: r except cls as e: h e] *)
Definition try_except {A} (r : result A) (cls : exn) (h : exn -> result A) : result A :=
  match r with
  | Ok a => Ok a
  | Raise e => if isinstance e cls then h e else Raise e
  end.

(** [for x in l: s = body s x], stopping at the first exception. *)
Fixpoint for_in {A S} (l : list A) (body : S -> A -> result S) (s : S) : result S :=
  match l with
  | [] => Ok s
  | x :: l' => s' ← body s x; for_in l' body s'
  end.

Definition is_ok {A} (r : result A) : bool :=
  match r with Ok _ => true | Raise _ => false end.

(** ** Python [str] primitives *)

Module PyStr.

(** [s.split(sep)] for a one-character separator: never the empty list. *)
Fixpoint split (sep : ascii) (s : string) : list string :=
  match s with
  | EmptyString => [ EmptyString ]
  | String c s' =>
      if Ascii.eqb c sep then EmptyString :: split sep s'
      else match split sep s' with
           | h :: t => String c h :: t
           | [] => [ String c EmptyString ]
           end
  end.

(** [sep.join(l)] *)
Fixpoint join (sep : string) (l : list string) : string :=
  match l with
  | [] => EmptyString
  | [ x ] => x
  | x :: l' => x +:+ sep +:+ join sep l'
  end.

Definition is_digit (c : ascii) : bool :=
  let n := N_of_ascii c in ((48 <=? n) && (n <=? 57))%N.

Fixpoint all_digits (s : string) : bool :=
  match s with
  | EmptyString => true
  | String c s' => is_digit c && all_digits s'
  end.

(** [s.isascii() and s.isdigit()]: at least one character, all of them in
    ['0'..'9']. *)
Definition isascii_isdigit (s : string) : bool :=
  match s with
  | EmptyString => false
  | _ => all_digits s
  end.

Fixpoint int_acc (acc : Z) (s : string) : Z :=
  match s with
  | EmptyString => acc
  | String c s' => int_acc (10 * acc + (Z.of_N (N_of_ascii c) - 48)) s'
  end.

(** The value of [int(s, 10)] on a string of ASCII digits. *)
Definition int (s : string) : Z := int_acc 0 s.

(** [sys.int_info.default_max_str_digits] *)
Definition default_max_str_digits : nat := 4300.

(** [int(s, 10)] on a string of ASCII digits of any length: a string of
    more digits than the limit raises [ValueError]. *)
Definition int_limited (s : string) : result Z :=
  if (default_max_str_digits <? String.length s)%nat then Raise ValueError
  else Ok (int s).

(** [str(n)] for an integer. *)
Definition str (n : Z) : string := pretty n.

Fixpoint contains (c : ascii) (s : string) : bool :=
  match s with
  | EmptyString => false
  | String d s' => Ascii.eqb d c || contains c s'
  end.

End PyStr.

(** ** The [ipaddress] module, IPv4 part *)

Module ipaddress.

Definition IPV4LENGTH : Z := 32.
Definition _ALL_ONES : Z := 2 ^ IPV4LENGTH - 1.
Definition _max_prefixlen : Z := IPV4LENGTH.

(** [x.bit_length()] *)
Definition bit_length (x : Z) : Z :=
  if x =? 0 then 0 else Z.log2 (Z.abs x) + 1.

Definition _count_righthand_zero_bits (number bits : Z) : Z :=
  if number =? 0 then bits
  else Z.min bits (bit_length (Z.land (Z.lnot number) (number - 1))).

Definition _split_optional_netmask (address : string) : result (list string) :=
  let addr := PyStr.split "/" address in
  if (2 <? length addr)%nat then Raise AddressValueError else Ok addr.

Definition _ip_int_from_prefix (prefixlen : Z) : Z :=
  Z.lxor _ALL_ONES (Z.shiftr _ALL_ONES prefixlen).

Definition _prefix_from_ip_int (ip_int : Z) : result Z :=
  let trailing_zeroes := _count_righthand_zero_bits ip_int _max_prefixlen in
  let prefixlen := _max_prefixlen - trailing_zeroes in
  let leading_ones := Z.shiftr ip_int trailing_zeroes in
  let all_ones := Z.shiftl 1 prefixlen - 1 in
  if negb (leading_ones =? all_ones) then Raise ValueError
  else Ok prefixlen.

Definition _report_invalid_netmask {A} : result A := Raise NetmaskValueError.

Definition _prefix_from_prefix_string (prefixlen_str : string) : result Z :=
  if negb (PyStr.isascii_isdigit prefixlen_str) then _report_invalid_netmask
  else
    prefixlen ← try_except (PyStr.int_limited prefixlen_str)
                  ValueError (fun _ => _report_invalid_netmask);
    if negb ((0 <=? prefixlen) && (prefixlen <=? _max_prefixlen))
    then _report_invalid_netmask
    else Ok prefixlen.

Definition _parse_octet (octet_str : string) : result Z :=
  if String.eqb octet_str "" then Raise ValueError
  else if negb (PyStr.isascii_isdigit octet_str) then Raise ValueError
  else if (3 <? String.length octet_str)%nat then Raise ValueError
  else if negb (String.eqb octet_str "0")
          && match octet_str with
             | String c _ => Ascii.eqb c "0"
             | EmptyString => false
             end
  then Raise ValueError
  else
    let octet_int := PyStr.int octet_str in
    if 255 <? octet_int then Raise ValueError else Ok octet_int.

(** [int.from_bytes(map(f, l), 'big')]: the map is lazy, so the first
    failing element raises. *)
Fixpoint from_bytes_map (f : string -> result Z) (acc : Z) (l : list string)
  : result Z :=
  match l with
  | [] => Ok acc
  | x :: l' => b ← f x; from_bytes_map f (256 * acc + b) l'
  end.

Definition _ip_int_from_string (ip_str : string) : result Z :=
  if String.eqb ip_str "" then Raise AddressValueError
  else
    let octets := PyStr.split "." ip_str in
    if negb (length octets =? 4)%nat then Raise AddressValueError
    else
      try_except (from_bytes_map _parse_octet 0 octets)
        ValueError (fun _ => Raise AddressValueError).

Definition _prefix_from_ip_string (ip_str : string) : result Z :=
  ip_int ← try_except (_ip_int_from_string ip_str)
             AddressValueError (fun _ => _report_invalid_netmask);
  match _prefix_from_ip_int ip_int with
  | Ok p => Ok p
  | Raise e =>
      if isinstance e ValueError then
        let ip_int := Z.lxor ip_int _ALL_ONES in
        try_except (_prefix_from_ip_int ip_int)
          ValueError (fun _ => _report_invalid_netmask)
      else Raise e
  end.

(** The second component of what [_split_addr_prefix] returns: the integer
    [_max_prefixlen] when the string has no ['/'], the text after it
    otherwise. *)
Inductive mask_arg : Set :=
| MaskInt (n : Z)
| MaskStr (s : string).

(** [_make_netmask] without its cache, which only memoises: the pair
    [(netmask, prefixlen)]. *)
Definition _make_netmask (arg : mask_arg) : result (Z * Z) :=
  prefixlen ←
    match arg with
    | MaskInt prefixlen =>
        if negb ((0 <=? prefixlen) && (prefixlen <=? _max_prefixlen))
        then _report_invalid_netmask
        else Ok prefixlen
    | MaskStr s =>
        try_except (_prefix_from_prefix_string s)
          NetmaskValueError (fun _ => _prefix_from_ip_string s)
    end;
  Ok (_ip_int_from_prefix prefixlen, prefixlen).

Definition _split_addr_prefix (address : string) : result (string * mask_arg) :=
  address ← _split_optional_netmask address;
  match address with
  | [ addr; mask ] => Ok (addr, MaskStr mask)
  | addr :: _ => Ok (addr, MaskInt _max_prefixlen)
  | [] => Ok (EmptyString, MaskInt _max_prefixlen)
  end.

(** [IPv4Address(address)] for a string: the integer [_ip]. *)
Definition IPv4Address (address : string) : result Z :=
  if PyStr.contains "/" address then Raise AddressValueError
  else _ip_int_from_string address.

Record network : Set := Network {
  network_address : Z;
  netmask : Z;
  _prefixlen : Z
}.

(** [IPv4Network(address)] for a string, with the default [strict=True]. *)
Definition IPv4Network (address : string) : result network :=
  '(addr, mask) ← _split_addr_prefix address;
  network_address ← IPv4Address addr;
  '(netmask, prefixlen) ← _make_netmask mask;
  let packed := network_address in
  if negb (Z.land packed netmask =? packed) then Raise ValueError
  else Ok (Network network_address netmask prefixlen).

Definition hostmask (n : network) : Z := Z.lxor (netmask n) _ALL_ONES.

Definition broadcast_address (n : network) : Z :=
  Z.lor (network_address n) (hostmask n).

(** [range(a, b)] *)
Definition range (a b : Z) : list Z := seqZ a (b - a).

(** [iter(net)]: the integers of the addresses yielded, in order. *)
Definition iter (n : network) : list Z :=
  range (network_address n) (broadcast_address n + 1).

(** [ip_int.to_bytes(4, 'big')] *)
Definition to_bytes4 (ip_int : Z) : list Z :=
  [ Z.land (Z.shiftr ip_int 24) 255;
    Z.land (Z.shiftr ip_int 16) 255;
    Z.land (Z.shiftr ip_int 8) 255;
    Z.land ip_int 255 ].

Definition _string_from_ip_int (ip_int : Z) : string :=
  PyStr.join "." (map PyStr.str (to_bytes4 ip_int)).

(** [addr in net] for an [IPv4Address] and an [IPv4Network]. *)
Definition contains (n : network) (other_ip : Z) : bool :=
  Z.land other_ip (netmask n) =? network_address n.

End ipaddress.

Import ipaddress.

(** ** [re.findall] for patterns made of one-character classes and greedy
    stars over them *)

Module re.

Inductive cls : Set :=
| Lit (c : ascii)              (* an ordinary character *)
| Dot                          (* [.]: anything but a newline *)
| In (l : list ascii)          (* [[...]] *)
| NotIn (l : list ascii).      (* [[^...]] *)

Definition mem (c : ascii) (l : list ascii) : bool :=
  existsb (Ascii.eqb c) l.

Definition cls_match (k : cls) (c : ascii) : bool :=
  match k with
  | Lit d => Ascii.eqb c d
  | Dot => negb (Ascii.eqb c "010")
  | In l => mem c l
  | NotIn l => negb (mem c l)
  end.

Inductive item : Set :=
| One (k : cls)
| Star (k : cls).

Definition pattern : Set := list item.

Fixpoint lits (s : string) : pattern :=
  match s with
  | EmptyString => []
  | String c s' => One (Lit c) :: lits s'
  end.

(** The match of [p] at the start of [s] that the backtracking matcher
    finds first: a star takes as many characters as it can and gives them
    back one at a time. *)
Fixpoint match_here (p : pattern) : string -> option string :=
  match p with
  | [] => fun _ => Some EmptyString
  | One k :: p' => fun s =>
      match s with
      | String c s' =>
          if cls_match k c then String c <$> match_here p' s' else None
      | EmptyString => None
      end
  | Star k :: p' =>
      fix star (s : string) : option string :=
        match s with
        | String c s' =>
            if cls_match k c then
              match star s' with
              | Some m => Some (String c m)
              | None => match_here p' s
              end
            else match_here p' s
        | EmptyString => match_here p' EmptyString
        end
  end.

(** [findall]: scan left to right; after a match resume behind it
    ([skip] counts the characters of the match still to step over). *)
Fixpoint findall_from (p : pattern) (skip : nat) (s : string) {struct s}
  : list string :=
  match skip with
  | S k =>
      match s with
      | String _ s' => findall_from p k s'
      | EmptyString => []
      end
  | O =>
      match match_here p s with
      | Some m =>
          m :: match s with
               | String _ s' => findall_from p (Nat.pred (String.length m)) s'
               | EmptyString => []
               end
      | None =>
          match s with
          | String _ s' => findall_from p O s'
          | EmptyString => []
          end
      end
  end.

(** [re.findall(p, s)].  The value is a list in every case; [Some] marks
    that it is never Python's [None]. *)
Definition findall (p : pattern) (s : string) : option (list string) :=
  Some (findall_from p O s).

End re.

(** ** [str(b)] for a [bytes] object [b]: its [repr] *)

Module PyBytes.

Definition Py_hexdigits : string := "0123456789abcdef".

Definition hexdigit (n : N) : ascii :=
  match String.get (N.to_nat n) Py_hexdigits with
  | Some c => c
  | None => "0"%char
  end.

Definition squote : ascii := "039".
Definition dquote : ascii := "034".
Definition backslash : ascii := "092".

Definition repr_byte (quote c : ascii) : string :=
  let n := N_of_ascii c in
  if Ascii.eqb c quote || Ascii.eqb c backslash then String backslash (String c "")
  else if Ascii.eqb c "009" then String backslash "t"
  else if Ascii.eqb c "010" then String backslash "n"
  else if Ascii.eqb c "013" then String backslash "r"
  else if ((n <? 32) || (127 <=? n))%N then
    String backslash
      (String "x" (String (hexdigit (N.shiftr (N.land n 240) 4))
                     (String (hexdigit (N.land n 15)) "")))
  else String c "".

Fixpoint repr_body (quote : ascii) (b : string) : string :=
  match b with
  | EmptyString => EmptyString
  | String c b' => repr_byte quote c +:+ repr_body quote b'
  end.

Definition quote_of (b : string) : ascii :=
  if PyStr.contains squote b && negb (PyStr.contains dquote b)
  then dquote else squote.

Definition repr (b : string) : string :=
  let quote := quote_of b in
  String "b" (String quote (repr_body quote b +:+ String quote "")).

End PyBytes.

(** ** The module [DynamicBlacklist] *)

Definition T2_EU : gset string :=
  list_to_set [ "185.56.64.0/24"; "185.56.64.0/22"; "185.56.65.0/24";
                "185.56.66.0/24"; "185.56.67.0/24" ].

Definition T2_US : gset string :=
  list_to_set [ "104.255.104.0/24"; "104.255.104.0/22"; "104.255.105.0/24";
                "104.255.106.0/24"; "104.255.107.0/24";
                "192.81.240.0/24"; "192.81.240.0/22"; "192.81.241.0/24";
                "192.81.242.0/24"; "192.81.243.0/24";
                "192.81.244.0/24"; "192.81.244.0/22"; "192.81.245.0/24";
                "192.81.246.0/24"; "192.81.247.0/24";
                "198.133.210.0/24" ].

Definition AZURE_GET_PUBLIC_CLOUD_URL : string :=
  "https://www.microsoft.com/en-us/download/confirmation.aspx?id=56519".

(** The compiled pattern: [https://download.microsoft.com/download], with its
    two dots unescaped, then a greedy star over every character but the
    double quote, then [[.]json]. *)
Definition MICROSOFT_DOWNLOAD_REGEX : re.pattern :=
  (re.lits "https://download" ++ [ re.One re.Dot ] ++
   re.lits "microsoft" ++ [ re.One re.Dot ] ++
   re.lits "com/download" ++
   [ re.Star (re.NotIn [ PyBytes.dquote ]); re.One (re.In [ "."%char ]) ] ++
   re.lits "json")%list.

(** What [requests.get] hands back: the status code and the body bytes. *)
Record response : Set := Response {
  status_code : Z;
  content : string
}.

(** [response.raise_for_status()] *)
Definition raise_for_status (r : response) : result unit :=
  if (400 <=? status_code r) && (status_code r <? 600) then Raise HTTPError
  else Ok tt.

Section Transport.

(** [requests.get]: a response, or a [RequestException]. *)
Variable requests_get : string -> result response.

(** The handler of the [try] names two classes and raises what it caught
    again.  [page_to_search] defaults to [AZURE_GET_PUBLIC_CLOUD_URL]. *)
Definition get_azure_ip_ranges_download (page_to_search : string)
  : result (list string) :=
  let reraise (e : exn) : result (list string) := Raise e in
  try_except
    (try_except
       (response ← requests_get page_to_search;
        _ ← raise_for_status response;
        let files := re.findall MICROSOFT_DOWNLOAD_REGEX
                       (PyBytes.repr (content response)) in
        match files with
        | None => Raise ScrapeError
        | Some files =>
            let files := elements (list_to_set files : gset string) in
            Ok files
        end)
       ScrapeError reraise)
    RequestException reraise.

(** The body stops after the status check: the function falls off its end
    and returns [None], whatever the file holds. *)
Definition parse_azure_ip_ranges (url_to_json_file : string)
  : result (option (list string)) :=
  response ← requests_get url_to_json_file;
  _ ← raise_for_status response;
  Ok None.

End Transport.

Definition get_all_ips_from_cidr (ip_in_cidr_notation : string)
  : result (gset string) :=
  let ips : gset string := ∅ in
  ip_range ← IPv4Network ip_in_cidr_notation;
  for_in (iter ip_range)
    (fun ips ip => Ok ({[ _string_from_ip_int ip ]} ∪ ips)) ips.

Definition get_all_ips_from_cidr_array (array_of_ip_in_cidr_notation : list string)
  : result (gset string) :=
  let ips : gset string := ∅ in
  for_in array_of_ip_in_cidr_notation
    (fun ips ip_range =>
       s ← get_all_ips_from_cidr ip_range;
       Ok (ips ∪ s)) ips.

(** The decoded JSON document, by the keys the module reads:
    [doc['values']] is a list of categories and
    [cat['properties']['addressPrefixes']] a list of strings; [name] stands
    for the other keys of a category. *)
Record category_properties : Set := Properties {
  addressPrefixes : list string
}.

Record category : Set := Category {
  name : string;
  properties : category_properties
}.

Record azure_info : Set := AzureInfo {
  values : list category
}.

Global Instance category_properties_eq_dec : EqDecision category_properties.
Proof. solve_decision. Defined.
Global Instance category_eq_dec : EqDecision category.
Proof. solve_decision. Defined.

(** The body of the inner loop for one [str_cidr]. *)
Definition search_block (ip : string) (cat : category)
    (search : list category) (str_cidr : string) : result (list category) :=
  try_except
    (cidr ← IPv4Network str_cidr;
     addr ← IPv4Address ip;
     if contains cidr addr then Ok (search ++ [ cat ])%list else Ok search)
    AddressValueError (fun _ => Ok search).

Definition reverse_search_ip_in_azure (ip : string) (azure_info_json : azure_info)
  : result (list category) :=
  let search : list category := [] in
  let categories := values azure_info_json in
  for_in categories
    (fun search cat =>
       let ranges := addressPrefixes (properties cat) in
       for_in ranges (search_block ip cat) search)
    search.

(** ** Vocabulary of the statements *)

(** *** Networks *)

(** What [IPv4Network] establishes of the object it returns. *)
Record network_ok (net : network) : Prop := {
  prefixlen_range : 0 ≤ _prefixlen net ≤ 32;
  netmask_eq : netmask net = 2 ^ 32 - 2 ^ (32 - _prefixlen net);
  hostmask_eq : hostmask net = 2 ^ (32 - _prefixlen net) - 1;
  address_range : 0 ≤ network_address net < 2 ^ 32;
  address_aligned : network_address net `mod` 2 ^ (32 - _prefixlen net) = 0;
  broadcast_eq :
    broadcast_address net = network_address net + 2 ^ (32 - _prefixlen net) - 1;
  broadcast_range : broadcast_address net < 2 ^ 32
}.

(** One line of the table of the 33 netmasks. *)
Definition netmask_row (p : Z) : bool :=
  let nm := _ip_int_from_prefix p in
  (nm =? 2 ^ 32 - 2 ^ (32 - p))
  && (Z.lxor nm _ALL_ONES =? 2 ^ (32 - p) - 1)
  && (Z.land nm (Z.lxor nm _ALL_ONES) =? 0)
  && (Z.lor nm (Z.lxor nm _ALL_ONES) =? 2 ^ 32 - 1).

(** One line of the table of the 256 octets: [str] prints what
    [_parse_octet] reads back, without a dot or a slash. *)
Definition octet_row (b : Z) : bool :=
  match _parse_octet (PyStr.str b) with
  | Ok b' => b' =? b
  | Raise _ => false
  end
  && negb (PyStr.contains "." (PyStr.str b))
  && negb (PyStr.contains "/" (PyStr.str b)).

(** A block is valid when [IPv4Network] accepts it. *)
Definition valid_block (B : string) : Prop := is_ok (IPv4Network B) = true.

(** What a valid block expands to. *)
Definition expansion (B : string) : gset string :=
  match get_all_ips_from_cidr B with
  | Ok ips => ips
  | Raise _ => ∅
  end.

(** *** Strings and matches *)

(** [m] occurs in [s]. *)
Definition substring (m s : string) : Prop := ∃ a b, s = a +:+ m +:+ b.

Definition str_head (s : string) : option ascii :=
  match s with
  | String c _ => Some c
  | EmptyString => None
  end.

Fixpoint str_drop (n : nat) (s : string) : string :=
  match n, s with
  | S n', String _ s' => str_drop n' s'
  | _, _ => s
  end.

Fixpoint str_take (n : nat) (s : string) : string :=
  match n, s with
  | S n', String c s' => String c (str_take n' s')
  | _, _ => EmptyString
  end.

(** No position of [s] but [i0] starts with [P]. *)
Definition starts_only_at (P s : string) (i0 : option nat) : bool :=
  forallb (λ i, negb (String.prefix P (str_drop i s))
                || match i0 with Some j => Nat.eqb i j | None => false end)
    (seq 0 (S (String.length s))).

(** The strings a pattern matches as a whole. *)
Inductive matches : re.pattern → string → Prop :=
| matches_nil : matches [] ""
| matches_one k p c s :
    re.cls_match k c = true → matches p s → matches (re.One k :: p) (String c s)
| matches_star_stop k p s :
    matches p s → matches (re.Star k :: p) s
| matches_star_step k p c s :
    re.cls_match k c = true → matches (re.Star k :: p) s →
    matches (re.Star k :: p) (String c s).

(** The strings the download pattern matches, spelled out. *)
Definition download_link (x y : ascii) (mid : string) : string :=
  "https://download" +:+ String x ("microsoft" +:+ String y
    ("com/download" +:+ mid +:+ ".json")).

Definition foo_bar_url : string :=
  "https://download.microsoft.com/download/foo/bar.json".

Definition plain_page : string := "<html><body>No downloads here</body></html>".

(** *** The text of [repr] *)

Import PyBytes.

(** A string between double quotes. *)
Definition quoted (s : string) : string :=
  String dquote (s +:+ String dquote "").

(** A page that links the file once, in an attribute. *)
Definition link_page : string :=
  "<a href=" +:+ quoted foo_bar_url +:+ ">Download</a>".

(** The characters that follow the backslash of a two-character escape. *)
Definition esc2 (q e : ascii) : bool :=
  Ascii.eqb e "t" || Ascii.eqb e "n" || Ascii.eqb e "r"
  || Ascii.eqb e backslash || Ascii.eqb e q.

Definition is_hex (h : ascii) : bool := PyStr.contains h Py_hexdigits.

(** Every character an escape holds behind its backslash. *)
Definition esc_tail (q l : ascii) : bool :=
  esc2 q l || Ascii.eqb l "x" || is_hex l.

(** The three shapes of what [repr_byte] prints. *)
Definition repr_byte_shape (q ch : ascii) : bool :=
  match repr_byte q ch with
  | String a "" => Ascii.eqb a ch && negb (Ascii.eqb a backslash)
  | String a (String e "") => Ascii.eqb a backslash && esc2 q e
  | String a (String x (String h1 (String h2 ""))) =>
      Ascii.eqb a backslash && Ascii.eqb x "x" && is_hex h1 && is_hex h2
  | _ => false
  end.

Definition is_quote (q : ascii) : Prop := q = squote ∨ q = dquote.

(** *** Range documents *)

Definition blocks (cat : category) : list string :=
  addressPrefixes (properties cat).

(** [ip] lies in the block [b]: both parse and the membership test holds. *)
Definition block_matches (ip b : string) : bool :=
  match IPv4Network b, IPv4Address ip with
  | Ok cidr, Ok addr => contains cidr addr
  | _, _ => false
  end.

(** How many blocks of [cat] hold [ip]. *)
Definition hits (ip : string) (cat : category) : nat :=
  length (filter (λ b, block_matches ip b = true) (blocks cat)).

(** [b] parses as a network, or fails with the class the handler of the
    scan names. *)
Definition block_scannable (b : string) : bool :=
  match IPv4Network b with
  | Ok _ => true
  | Raise e => isinstance e AddressValueError
  end.

Definition doc_scannable (doc : azure_info) : Prop :=
  Forall (λ cat, Forall (λ b, block_scannable b = true) (blocks cat)) (values doc).

(** The outcomes left to a loop that starts from [search] when the address
    does not parse: it returns [search] untouched or lets the error of a
    block through. *)
Definition untouched (search : list category) (r : result (list category)) : Prop :=
  r = Ok search ∨ ∃ e', e' ≠ AddressValueError ∧ r = Raise e'.

(** *** Inputs of the examples *)

Definition cat_two_blocks : category :=
  Category "AzureCloud" (Properties [ "10.0.0.0/8"; "10.1.0.0/16" ]).

Definition cat_one_block : category :=
  Category "AzureCloud.westeurope" (Properties [ "10.1.2.0/24"; "2603:1000::/40" ]).

Definition cat_elsewhere : category :=
  Category "Sql" (Properties [ "192.168.0.0/16" ]).

Definition doc_two_blocks : azure_info := AzureInfo [ cat_two_blocks ].

Definition doc_three : azure_info :=
  AzureInfo [ cat_elsewhere; cat_one_block; cat_elsewhere ].

Definition doc_bad_netmask : azure_info :=
  AzureInfo [ Category "AzureCloud" (Properties [ "10.0.0.0/33" ]) ].

Definition doc_host_bits : azure_info :=
  AzureInfo [ Category "AzureCloud" (Properties [ "10.0.0.1/8" ]) ].

(** The file of the parsing scenario: one category with the prefixes
    [not-a-cidr] and [10.0.0.0/8]. *)
Definition ranges_file : string :=
  "{" +:+ quoted "values" +:+ ": [{" +:+ quoted "name" +:+ ": "
  +:+ quoted "AzureCloud" +:+ ", " +:+ quoted "properties" +:+ ": {"
  +:+ quoted "addressPrefixes" +:+ ": [" +:+ quoted "not-a-cidr" +:+ ", "
  +:+ quoted "10.0.0.0/8" +:+ "]}}]}".

(** A transport that answers every URL with status 200 and the body [b]. *)
Definition serve (b : string) : string → result response :=
  λ _, Ok (Response 200 b).

(** *** Pages *)

(** No byte of [c] is escaped in [str(c)]: between the quotes stands [c]
    itself. *)
Definition prints_as_itself (c : string) : bool :=
  String.eqb (repr_body (quote_of c) c) c.

(** A byte that [repr_byte] prints as itself: printable ASCII, neither the
    backslash nor the quote in use. *)
Definition plain_byte (q ch : ascii) : bool :=
  let n := N_of_ascii ch in
  (32 <=? n)%N && (n <? 127)%N
  && negb (Ascii.eqb ch backslash) && negb (Ascii.eqb ch q).







(** *** Fetches, spans and address texts *)

(** The two ways a fetch fails: [requests.get] raises, or the status it
    hands back is one that [raise_for_status] turns into [HTTPError]. *)
Definition fetch_fails (requests_get : string → result response)
    (url : string) (e : exn) : Prop :=
  requests_get url = Raise e
  ∨ (e = HTTPError
     ∧ ∃ r, requests_get url = Ok r ∧ 400 ≤ status_code r < 600).

(** A transport that raises [e] for every URL. *)
Definition refuse (e : exn) : string → result response := λ _, Raise e.

(** A transport that answers every URL with the given status and body. *)
Definition answer (status : Z) (b : string) : string → result response :=
  λ _, Ok (Response status b).

(** Every block of the category parses or fails with [AddressValueError]. *)
Definition cat_scannable (cat : category) : Prop :=
  Forall (λ b, block_scannable b = true) (blocks cat).

(** The text of a block in front of its first slash. *)
Definition address_part (b : string) : string := hd "" (PyStr.split "/" b).

(** The integers of the addresses of a network. *)
Definition in_span (net : network) (n : Z) : Prop :=
  network_address net ≤ n
  ≤ network_address net + 2 ^ (32 - _prefixlen net) - 1.

Definition digit_chars : list ascii :=
  [ "0"; "1"; "2"; "3"; "4"; "5"; "6"; "7"; "8"; "9" ]%char.

(** The strings of [n] decimal digits. *)
Fixpoint digit_strings (n : nat) : list string :=
  match n with
  | O => [ "" ]
  | S n' => c ← digit_chars; s ← digit_strings n'; [ String c s ]
  end.

(** One line of the table of the octet texts: what [_parse_octet] accepts is
    what [str] prints for the value. *)
Definition octet_text_row (s : string) : bool :=
  match _parse_octet s with
  | Ok b => String.eqb s (PyStr.str b)
  | Raise _ => true
  end.

(** ** Lemmas *)

Example split_cidr : PyStr.split "/" "185.56.64.0/24" = [ "185.56.64.0"; "24" ].
Proof. reflexivity. Qed.

Example network_24 :
  IPv4Network "185.56.64.0/24" = Ok (Network 3107471360 4294967040 24).
Proof. vm_compute. reflexivity. Qed.

Lemma bind_Ok {A B} (r : result A) (k : A → result B) b :
  (r ≫= k) = Ok b ↔ ∃ a, r = Ok a ∧ k a = Ok b.
Proof.
  destruct r as [a|e]; unfold mbind, result_bind; split.
  - eauto.
  - intros (a' & [= <-] & H). done.
  - done.
  - intros (a' & [=] & _).
Qed.

Lemma bind_Raise {A B} (r : result A) (k : A → result B) e :
  (r ≫= k) = Raise e ↔ r = Raise e ∨ ∃ a, r = Ok a ∧ k a = Raise e.
Proof.
  destruct r as [a|e']; unfold mbind, result_bind; split.
  - right. eauto.
  - intros [[=]|(a' & [= <-] & H)]. done.
  - intros [= ->]. by left.
  - intros [[= ->]|(a' & [=] & _)]. done.
Qed.

Lemma try_except_reraise {A} (r : result A) cls :
  try_except r cls (λ e, Raise e) = r.
Proof. destruct r as [a|e]; [done|]. simpl. by destruct (isinstance e cls). Qed.

(** *** Which exceptions the [ipaddress] constructors raise *)

Section exceptions.

Lemma _parse_octet_raises s e : _parse_octet s = Raise e → e = ValueError.
Proof. unfold _parse_octet. repeat case_match; congruence. Qed.

Lemma from_bytes_map_raises l acc e :
  from_bytes_map _parse_octet acc l = Raise e → e = ValueError.
Proof.
  revert acc. induction l as [|x l IH]; intros acc; simpl; [done|].
  rewrite bind_Raise. intros [H|(b & _ & H)]; eauto using _parse_octet_raises.
Qed.

Lemma _ip_int_from_string_raises s e :
  _ip_int_from_string s = Raise e → e = AddressValueError.
Proof.
  unfold _ip_int_from_string, try_except.
  repeat case_match; try congruence.
  intros [= <-]. 
  match goal with H : from_bytes_map _ _ _ = Raise _ |- _ =>
    apply from_bytes_map_raises in H; subst end.
  done.
Qed.

Lemma IPv4Address_raises s e : IPv4Address s = Raise e → e = AddressValueError.
Proof.
  unfold IPv4Address. case_match; [congruence|]. apply _ip_int_from_string_raises.
Qed.

Lemma _prefix_from_ip_int_raises n e : _prefix_from_ip_int n = Raise e → e = ValueError.
Proof. unfold _prefix_from_ip_int. case_match; congruence. Qed.

Lemma _prefix_from_prefix_string_raises s e :
  _prefix_from_prefix_string s = Raise e → e = NetmaskValueError.
Proof.
  unfold _prefix_from_prefix_string, _report_invalid_netmask, PyStr.int_limited.
  destruct (negb (PyStr.isascii_isdigit s)); [congruence|].
  destruct (_ <? _)%nat; simpl; [congruence|].
  destruct (negb _); congruence.
Qed.

Lemma _prefix_from_ip_string_raises s e :
  _prefix_from_ip_string s = Raise e → e = NetmaskValueError.
Proof.
  unfold _prefix_from_ip_string, _report_invalid_netmask, try_except.
  destruct (_ip_int_from_string s) as [n|e'] eqn:Hs; simpl.
  - destruct (_prefix_from_ip_int n) as [p|e1] eqn:H1; [done|].
    apply _prefix_from_ip_int_raises in H1 as ->. simpl.
    destruct (_prefix_from_ip_int _) as [p|e2] eqn:H2; [done|].
    apply _prefix_from_ip_int_raises in H2 as ->. simpl. congruence.
  - apply _ip_int_from_string_raises in Hs as ->. simpl. congruence.
Qed.

Lemma _make_netmask_raises m e : _make_netmask m = Raise e → e = NetmaskValueError.
Proof.
  unfold _make_netmask. rewrite bind_Raise. intros [H|(p & _ & [=])].
  destruct m as [n|s].
  - unfold _report_invalid_netmask in H. case_match; congruence.
  - unfold try_except in H.
    destruct (_prefix_from_prefix_string s) as [p|e1] eqn:H1; [done|].
    apply _prefix_from_prefix_string_raises in H1 as ->. simpl in H.
    by apply _prefix_from_ip_string_raises in H.
Qed.

End exceptions.

(** *** The numbers of a network *)

Section numbers.

Lemma all_digits_int_acc s acc :
  PyStr.all_digits s = true → 0 ≤ acc → 0 ≤ PyStr.int_acc acc s.
Proof.
  revert acc. induction s as [|c s IH]; intros acc; simpl; [done|].
  rewrite andb_true_iff. unfold PyStr.is_digit at 1.
  rewrite andb_true_iff, !N.leb_le. intros [[Hlo Hhi] Hs] Hacc.
  apply IH; [done|lia].
Qed.

Lemma _parse_octet_Ok s b : _parse_octet s = Ok b → 0 ≤ b ≤ 255.
Proof.
  unfold _parse_octet.
  destruct (String.eqb s ""); [done|].
  destruct (negb (PyStr.isascii_isdigit s)) eqn:Hd; [done|].
  destruct (3 <? String.length s)%nat; [done|].
  destruct (negb (String.eqb s "0") && _); [done|].
  destruct (255 <? PyStr.int s) eqn:Hle; [done|]. intros [= <-].
  split; [|lia].
  apply all_digits_int_acc; [|done].
  apply negb_false_iff in Hd. unfold PyStr.isascii_isdigit in Hd.
  by destruct s.
Qed.

Lemma from_bytes_map_Ok l acc n :
  from_bytes_map _parse_octet acc l = Ok n →
  0 ≤ acc → 256 ^ Z.of_nat (length l) * acc ≤ n < 256 ^ Z.of_nat (length l) * (acc + 1).
Proof.
  revert acc. induction l as [|x l IH]; intros acc; simpl length.
  - intros [= <-] ?. simpl. lia.
  - simpl. rewrite bind_Ok. intros (b & Hb & H) Hacc. apply _parse_octet_Ok in Hb.
    apply IH in H; [|lia].
    rewrite Nat2Z.inj_succ, Z.pow_succ_r by lia.
    assert (0 < 256 ^ Z.of_nat (length l)) by (apply Z.pow_pos_nonneg; lia).
    nia.
Qed.

Lemma _ip_int_from_string_Ok s n : _ip_int_from_string s = Ok n → 0 ≤ n < 2 ^ 32.
Proof.
  unfold _ip_int_from_string, try_except.
  repeat case_match; try congruence. intros [= <-].
  match goal with H : negb (_ =? _)%nat = false |- _ =>
    apply negb_false_iff, Nat.eqb_eq in H; rename H into Hlen end.
  match goal with H : from_bytes_map _ _ _ = Ok _ |- _ =>
    apply from_bytes_map_Ok in H; [|done]; rewrite Hlen in H end.
  change (256 ^ Z.of_nat 4) with (2 ^ 32) in *. lia.
Qed.

Lemma IPv4Address_Ok s n : IPv4Address s = Ok n → 0 ≤ n < 2 ^ 32.
Proof.
  unfold IPv4Address. case_match; [done|]. apply _ip_int_from_string_Ok.
Qed.

Lemma bit_length_nonneg x : 0 ≤ bit_length x.
Proof.
  unfold bit_length. case_match; [done|].
  pose proof (Z.log2_nonneg (Z.abs x)). lia.
Qed.

Lemma _prefix_from_ip_int_Ok n p : _prefix_from_ip_int n = Ok p → 0 ≤ p ≤ 32.
Proof.
  unfold _prefix_from_ip_int, _count_righthand_zero_bits, _max_prefixlen, IPV4LENGTH.
  case_match; [done|]. intros [= <-].
  case_match; [lia|].
  pose proof (bit_length_nonneg (Z.land (Z.lnot n) (n - 1))). lia.
Qed.

Lemma _prefix_from_prefix_string_Ok s p :
  _prefix_from_prefix_string s = Ok p → 0 ≤ p ≤ 32.
Proof.
  unfold _prefix_from_prefix_string, _report_invalid_netmask, _max_prefixlen,
    IPV4LENGTH, PyStr.int_limited.
  destruct (negb (PyStr.isascii_isdigit s)); [done|].
  destruct (_ <? _)%nat; simpl; [done|].
  destruct (negb _) eqn:H; [done|]. intros [= <-].
  apply negb_false_iff, andb_true_iff in H as [?%Z.leb_le ?%Z.leb_le].
  done.
Qed.

Lemma _prefix_from_ip_string_Ok s p :
  _prefix_from_ip_string s = Ok p → 0 ≤ p ≤ 32.
Proof.
  unfold _prefix_from_ip_string. rewrite bind_Ok. intros (n & _ & H).
  destruct (_prefix_from_ip_int n) as [q|e] eqn:H1.
  - injection H as <-. eauto using _prefix_from_ip_int_Ok.
  - case_match; [|done]. unfold try_except in H.
    destruct (_prefix_from_ip_int (Z.lxor n _ALL_ONES)) as [q|e2] eqn:H2.
    + injection H as <-. eauto using _prefix_from_ip_int_Ok.
    + unfold _report_invalid_netmask in H. by case_match.
Qed.

Lemma _make_netmask_Ok m nm p :
  _make_netmask m = Ok (nm, p) → 0 ≤ p ≤ 32 ∧ nm = _ip_int_from_prefix p.
Proof.
  unfold _make_netmask. rewrite bind_Ok. intros (q & H & [= <- <-]).
  split; [|done]. destruct m as [n|s].
  - unfold _report_invalid_netmask, _max_prefixlen, IPV4LENGTH in H.
    case_match eqn:Hc; [done|]. injection H as <-.
    apply negb_false_iff, andb_true_iff in Hc as [?%Z.leb_le ?%Z.leb_le]. done.
  - unfold try_except in H.
    destruct (_prefix_from_prefix_string s) as [q'|e] eqn:H1.
    + injection H as <-. eauto using _prefix_from_prefix_string_Ok.
    + case_match; [|done]. eauto using _prefix_from_ip_string_Ok.
Qed.

Lemma netmask_table : forallb netmask_row (seqZ 0 33) = true.
Proof. vm_compute. reflexivity. Qed.

Lemma netmask_facts p :
  0 ≤ p ≤ 32 →
  _ip_int_from_prefix p = 2 ^ 32 - 2 ^ (32 - p)
  ∧ Z.lxor (_ip_int_from_prefix p) _ALL_ONES = 2 ^ (32 - p) - 1
  ∧ Z.land (_ip_int_from_prefix p) (Z.lxor (_ip_int_from_prefix p) _ALL_ONES) = 0
  ∧ Z.lor (_ip_int_from_prefix p) (Z.lxor (_ip_int_from_prefix p) _ALL_ONES)
    = 2 ^ 32 - 1.
Proof.
  intros Hp. pose proof netmask_table as Ht.
  rewrite forallb_forall in Ht. specialize (Ht p).
  unfold netmask_row in Ht. rewrite !andb_true_iff, !Z.eqb_eq in Ht.
  destruct Ht as [[[? ?] ?] ?]; [|done].
  apply list_elem_of_In, elem_of_seqZ. lia.
Qed.

Lemma IPv4Network_Ok B net : IPv4Network B = Ok net → network_ok net.
Proof.
  unfold IPv4Network. rewrite bind_Ok. intros ([addr mask] & _ & H).
  rewrite bind_Ok in H. destruct H as (na & Hna & H). apply IPv4Address_Ok in Hna.
  rewrite bind_Ok in H. destruct H as ([nm p] & Hm & H).
  apply _make_netmask_Ok in Hm as [Hp ->].
  case_match eqn:Hbits; [done|]. injection H as <-.
  apply negb_false_iff, Z.eqb_eq in Hbits.
  destruct (netmask_facts p Hp) as (Hnm & Hhm & Hdisj & _).
  assert (Hpow : 0 < 2 ^ (32 - p)) by (apply Z.pow_pos_nonneg; lia).
  assert (Hlow : Z.land na (Z.lxor (_ip_int_from_prefix p) _ALL_ONES) = 0).
  { rewrite <- Hbits at 1. rewrite <- Z.land_assoc, Hdisj. apply Z.land_0_r. }
  assert (Hb : Z.lor na (Z.lxor (_ip_int_from_prefix p) _ALL_ONES)
               = na + 2 ^ (32 - p) - 1).
  { rewrite <- Z.add_nocarry_lor by done. rewrite Hhm. lia. }
  assert (Hmod : na `mod` 2 ^ (32 - p) = 0).
  { rewrite Hhm in Hlow.
    change (2 ^ (32 - p) - 1) with (Z.pred (2 ^ (32 - p))) in Hlow.
    by rewrite <- Z.ones_equiv, Z.land_ones in Hlow by lia. }
  split; unfold broadcast_address, hostmask; simpl; try done.
  rewrite Hb.
  assert (H2 : 2 ^ 32 = 2 ^ (32 - p) * 2 ^ p).
  { rewrite <- Z.pow_add_r by lia. f_equal. lia. }
  assert (0 < 2 ^ p) by (apply Z.pow_pos_nonneg; lia).
  pose proof (Z.div_mod na (2 ^ (32 - p)) ltac:(lia)) as Hdm.
  rewrite Hmod in Hdm.
  assert (na `div` 2 ^ (32 - p) < 2 ^ p) by (apply Z.div_lt_upper_bound; lia).
  nia.
Qed.

(** The membership test is the test of the span of the block. *)
Lemma contains_span net n :
  network_ok net → 0 ≤ n < 2 ^ 32 →
  contains net n = true ↔
  network_address net ≤ n ≤ network_address net + 2 ^ (32 - _prefixlen net) - 1.
Proof.
  intros Hok Hn. unfold contains. rewrite Z.eqb_eq.
  pose proof (prefixlen_range _ Hok) as Hp.
  pose proof (address_aligned _ Hok) as Hmod.
  pose proof (hostmask_eq _ Hok) as Hhm. unfold hostmask in Hhm.
  set (k := 32 - _prefixlen net) in *.
  assert (Hpow : 0 < 2 ^ k) by (apply Z.pow_pos_nonneg; lia).
  assert (Hsplit : Z.land n (netmask net) = n - n `mod` 2 ^ k).
  { assert (Hnm : netmask net = _ip_int_from_prefix (_prefixlen net)).
    { rewrite (netmask_eq _ Hok).
      by destruct (netmask_facts _ Hp) as (-> & _). }
    destruct (netmask_facts _ Hp) as (_ & _ & Hdisj & Hall).
    rewrite <- Hnm in Hdisj, Hall.
    assert (Hsum : Z.land n (netmask net)
                   + Z.land n (Z.lxor (netmask net) _ALL_ONES) = n).
    { rewrite Z.add_nocarry_lor.
      - rewrite <- Z.land_lor_distr_r, Hall.
        change (2 ^ 32 - 1) with (Z.pred (2 ^ 32)).
        rewrite <- Z.ones_equiv, Z.land_ones by lia.
        apply Z.mod_small. lia.
      - apply Z.bits_inj'. intros i Hi. rewrite !Z.land_spec, Z.bits_0.
        assert (Hbit : Z.testbit (netmask net) i
                       && Z.testbit (Z.lxor (netmask net) _ALL_ONES) i = false).
        { by rewrite <- Z.land_spec, Hdisj, Z.bits_0. }
        destruct (Z.testbit n i), (Z.testbit (netmask net) i); simpl in *; done. }
    rewrite Hhm in Hsum.
    change (2 ^ k - 1) with (Z.pred (2 ^ k)) in Hsum.
    rewrite <- Z.ones_equiv, Z.land_ones in Hsum by lia. lia. }
  rewrite Hsplit.
  pose proof (Z.mod_pos_bound n (2 ^ k) Hpow) as Hbound.
  split.
  - intros Heq. lia.
  - intros Hrange.
    assert (Hd : n `mod` 2 ^ k = n - network_address net).
    { symmetry. apply (Z.mod_unique_pos _ _ (network_address net `div` 2 ^ k)).
      - lia.
      - pose proof (Z.div_mod (network_address net) (2 ^ k) ltac:(lia)). lia. }
    lia.
Qed.

(** For a block and an address that both parse, the address lies in the
    block when its integer is in the span of the block. *)
Lemma block_matches_span ip b net n :
  IPv4Network b = Ok net → IPv4Address ip = Ok n →
  block_matches ip b = true ↔
  network_address net ≤ n ≤ network_address net + 2 ^ (32 - _prefixlen net) - 1.
Proof.
  intros Hnet Hip. unfold block_matches. rewrite Hnet, Hip.
  apply contains_span; eauto using IPv4Network_Ok, IPv4Address_Ok.
Qed.

End numbers.

(** *** Printing an address and reading it back *)

Section formatting.

Lemma contains_app c a b :
  PyStr.contains c (a +:+ b) = PyStr.contains c a || PyStr.contains c b.
Proof.
  induction a as [|d a IH]; simpl; [done|]. rewrite IH. apply orb_assoc.
Qed.

Lemma split_no_sep sep a :
  PyStr.contains sep a = false → PyStr.split sep a = [ a ].
Proof.
  induction a as [|d a IH]; simpl; [done|].
  intros [Hd Ha]%orb_false_iff. rewrite Hd, IH; done.
Qed.

Lemma split_app_sep sep a r :
  PyStr.contains sep a = false →
  PyStr.split sep (a +:+ String sep r) = a :: PyStr.split sep r.
Proof.
  induction a as [|d a IH]; simpl.
  - intros _. by rewrite Ascii.eqb_refl.
  - intros [Hd Ha]%orb_false_iff. rewrite Hd, IH; done.
Qed.

Lemma octet_table : forallb octet_row (seqZ 0 256) = true.
Proof. vm_compute. reflexivity. Qed.

Lemma octet_facts b :
  0 ≤ b < 256 →
  _parse_octet (PyStr.str b) = Ok b
  ∧ PyStr.contains "." (PyStr.str b) = false
  ∧ PyStr.contains "/" (PyStr.str b) = false.
Proof.
  intros Hb. pose proof octet_table as Ht.
  rewrite forallb_forall in Ht. specialize (Ht b).
  unfold octet_row in Ht. rewrite !andb_true_iff, !negb_true_iff in Ht.
  destruct Ht as [[H1 H2] H3].
  { apply list_elem_of_In, elem_of_seqZ. lia. }
  destruct (_parse_octet (PyStr.str b)) as [b'|]; [|done].
  apply Z.eqb_eq in H1 as ->. done.
Qed.

Lemma to_bytes4_range n b : b ∈ to_bytes4 n → 0 ≤ b < 256.
Proof.
  unfold to_bytes4. rewrite !elem_of_cons, elem_of_nil.
  change 255 with (Z.ones 8).
  intros [->|[->|[->|[->|[]]]]]; rewrite Z.land_ones by lia;
    apply Z.mod_pos_bound; lia.
Qed.

Lemma to_bytes4_value n :
  0 ≤ n < 2 ^ 32 →
  match to_bytes4 n with
  | [ b0; b1; b2; b3 ] => 256 * (256 * (256 * (256 * 0 + b0) + b1) + b2) + b3 = n
  | _ => False
  end.
Proof.
  intros Hn. unfold to_bytes4. change 255 with (Z.ones 8).
  rewrite !Z.land_ones, !Z.shiftr_div_pow2 by lia.
  change (2 ^ 8) with 256. change (2 ^ 16) with 65536. change (2 ^ 24) with 16777216.
  change (2 ^ 32) with 4294967296 in Hn.
  Z.to_euclidean_division_equations. lia.
Qed.

Lemma join_dot4 a b c d :
  PyStr.join "." [ a; b; c; d ]
  = a +:+ String "." (b +:+ String "." (c +:+ String "." d)).
Proof. reflexivity. Qed.

(** Parsing what [str] printed gives the integer back. *)
Lemma IPv4Address_string_from_ip_int n :
  0 ≤ n < 2 ^ 32 → IPv4Address (_string_from_ip_int n) = Ok n.
Proof.
  intros Hn. pose proof (to_bytes4_value n Hn) as Hv.
  pose proof (to_bytes4_range n) as Hr.
  unfold _string_from_ip_int.
  destruct (to_bytes4 n) as [|b0 [|b1 [|b2 [|b3 [|]]]]]; try done.
  destruct (octet_facts b0) as (P0 & D0 & S0); [apply Hr; rewrite !elem_of_cons; tauto|].
  destruct (octet_facts b1) as (P1 & D1 & S1); [apply Hr; rewrite !elem_of_cons; tauto|].
  destruct (octet_facts b2) as (P2 & D2 & S2); [apply Hr; rewrite !elem_of_cons; tauto|].
  destruct (octet_facts b3) as (P3 & D3 & S3); [apply Hr; rewrite !elem_of_cons; tauto|].
  cbn [map]. rewrite join_dot4.
  unfold IPv4Address.
  repeat (rewrite contains_app; cbn [PyStr.contains]).
  rewrite S0, S1, S2, S3. simpl orb.
  unfold _ip_int_from_string.
  rewrite !split_app_sep, split_no_sep by done.
  destruct (String.eqb _ "") eqn:He.
  { apply String.eqb_eq in He. by destruct (PyStr.str b0). }
  simpl negb. cbn iota.
  cbn [from_bytes_map]. rewrite P0. cbn [mbind result_bind]. 
  unfold mbind, result_bind. rewrite P1, P2, P3. simpl try_except. by rewrite Hv.
Qed.

Lemma _string_from_ip_int_inj n m :
  0 ≤ n < 2 ^ 32 → 0 ≤ m < 2 ^ 32 →
  _string_from_ip_int n = _string_from_ip_int m → n = m.
Proof.
  intros Hn Hm Heq.
  pose proof (IPv4Address_string_from_ip_int n Hn) as H1.
  rewrite Heq, IPv4Address_string_from_ip_int in H1 by done. congruence.
Qed.

End formatting.

(** *** Expanding a block *)

Section expansion.

Lemma for_in_add {A} (f : A → string) (l : list A) (s : gset string) :
  for_in l (λ ips x, Ok ({[ f x ]} ∪ ips)) s = Ok (list_to_set (f <$> l) ∪ s).
Proof.
  revert s. induction l as [|x l IH]; intros s; cbn [for_in fmap list_fmap].
  - by rewrite list_to_set_nil, (left_id_L ∅ (∪)).
  - unfold mbind, result_bind. rewrite IH, list_to_set_cons. f_equal.
    by rewrite (assoc_L (∪)), (comm_L (∪) (list_to_set _)).
Qed.

Lemma get_all_ips_from_cidr_Ok B net :
  IPv4Network B = Ok net →
  get_all_ips_from_cidr B = Ok (list_to_set (_string_from_ip_int <$> iter net)).
Proof.
  intros H. unfold get_all_ips_from_cidr. rewrite H.
  unfold mbind, result_bind. by rewrite for_in_add, (right_id_L ∅ (∪)).
Qed.

Lemma get_all_ips_from_cidr_Raise B e :
  IPv4Network B = Raise e → get_all_ips_from_cidr B = Raise e.
Proof. intros H. unfold get_all_ips_from_cidr. by rewrite H. Qed.

Lemma elem_of_iter net n :
  network_ok net →
  n ∈ iter net ↔
  network_address net ≤ n ≤ network_address net + 2 ^ (32 - _prefixlen net) - 1.
Proof.
  intros Hok. unfold iter, range. rewrite elem_of_seqZ, (broadcast_eq _ Hok). lia.
Qed.

Lemma length_iter net :
  network_ok net → Z.of_nat (length (iter net)) = 2 ^ (32 - _prefixlen net).
Proof.
  intros Hok. unfold iter, range. rewrite length_seqZ, (broadcast_eq _ Hok).
  pose proof (prefixlen_range _ Hok).
  assert (0 < 2 ^ (32 - _prefixlen net)) by (apply Z.pow_pos_nonneg; lia).
  lia.
Qed.

Lemma iter_32bit net n : network_ok net → n ∈ iter net → 0 ≤ n < 2 ^ 32.
Proof.
  intros Hok Hn. apply elem_of_iter in Hn; [|done].
  pose proof (address_range _ Hok). pose proof (broadcast_range _ Hok) as Hb.
  rewrite (broadcast_eq _ Hok) in Hb. lia.
Qed.

Lemma NoDup_iter_strings net :
  network_ok net → NoDup (_string_from_ip_int <$> iter net).
Proof.
  intros Hok. apply NoDup_fmap_2_strong; [|apply NoDup_seqZ].
  intros n m Hn Hm. apply _string_from_ip_int_inj; eauto using iter_32bit.
Qed.

(** The set a valid block expands to: its size and its members. *)
Lemma get_all_ips_from_cidr_members B net :
  IPv4Network B = Ok net →
  ∃ ips,
    get_all_ips_from_cidr B = Ok ips
    ∧ Z.of_nat (size ips) = 2 ^ (32 - _prefixlen net)
    ∧ ∀ s, s ∈ ips ↔
           ∃ n, s = _string_from_ip_int n
                ∧ IPv4Address s = Ok n
                ∧ network_address net ≤ n
                  ≤ network_address net + 2 ^ (32 - _prefixlen net) - 1.
Proof.
  intros Hnet. pose proof (IPv4Network_Ok _ _ Hnet) as Hok.
  eexists. split; [by apply get_all_ips_from_cidr_Ok|]. split.
  - rewrite size_list_to_set by by apply NoDup_iter_strings.
    rewrite length_fmap. by apply length_iter.
  - intros s. rewrite elem_of_list_to_set, list_elem_of_fmap. split.
    + intros (n & -> & Hn). exists n. split; [done|].
      split; [|by apply elem_of_iter].
      apply IPv4Address_string_from_ip_int. by eapply iter_32bit.
    + intros (n & -> & _ & Hn). exists n. split; [done|].
      by apply elem_of_iter.
Qed.

End expansion.

(** *** Strings *)

Section strings.

Lemma str_app_cons c a b : String c a +:+ b = String c (a +:+ b).
Proof. reflexivity. Qed.

Lemma str_app_nil_l s : "" +:+ s = s.
Proof. reflexivity. Qed.

Lemma str_app_nil_r s : s +:+ "" = s.
Proof. induction s as [|c s IH]; [done|]. by rewrite str_app_cons, IH. Qed.

Lemma str_app_assoc a b c : (a +:+ b) +:+ c = a +:+ b +:+ c.
Proof. induction a as [|x a IH]; [done|]. by rewrite !str_app_cons, IH. Qed.

Lemma str_length_app a b :
  String.length (a +:+ b) = (String.length a + String.length b)%nat.
Proof. induction a as [|x a IH]; [done|]. rewrite str_app_cons. simpl. by rewrite IH. Qed.

End strings.

(** *** The matcher and the scan *)

Section matcher.

Lemma match_here_star k p c s :
  re.match_here (re.Star k :: p) (String c s)
  = if re.cls_match k c then
      match re.match_here (re.Star k :: p) s with
      | Some m => Some (String c m)
      | None => re.match_here p (String c s)
      end
    else re.match_here p (String c s).
Proof. reflexivity. Qed.

Lemma match_here_star_nil k p :
  re.match_here (re.Star k :: p) "" = re.match_here p "".
Proof. reflexivity. Qed.

(** What the matcher returns is a match and a prefix of the input. *)
Lemma match_here_sound p s m :
  re.match_here p s = Some m → matches p m ∧ ∃ rest, s = m +:+ rest.
Proof.
  revert s m. induction p as [|[k|k] p IH]; intros s m.
  - intros [= <-]. split; [constructor|by exists s].
  - destruct s as [|c s]; simpl; [done|].
    destruct (re.cls_match k c) eqn:Hk; [|done].
    destruct (re.match_here p s) as [m'|] eqn:Hm; [|done].
    intros [= <-]. apply IH in Hm as (Hm & rest & ->).
    split; [by constructor|by exists rest].
  - revert m. induction s as [|c s IHs]; intros m.
    + rewrite match_here_star_nil. intros Hm. apply IH in Hm as (Hm & rest & Hrest).
      split; [by constructor|by exists rest].
    + rewrite match_here_star.
      destruct (re.cls_match k c) eqn:Hk.
      * destruct (re.match_here (re.Star k :: p) s) as [m'|] eqn:Hs.
        -- intros [= <-]. destruct (IHs _ eq_refl) as (Hm & rest & ->).
           split; [by constructor|by exists rest].
        -- intros Hm. apply IH in Hm as (Hm & rest & Hrest).
           split; [by constructor|by exists rest].
      * intros Hm. apply IH in Hm as (Hm & rest & Hrest).
        split; [by constructor|by exists rest].
Qed.


Lemma findall_from_sound p k s m :
  m ∈ re.findall_from p k s → matches p m ∧ substring m s.
Proof.
  revert k. induction s as [|c s IH]; intros k.
  - destruct k as [|k]; simpl; [|by intros ?%elem_of_nil].
    destruct (re.match_here p "") as [m'|] eqn:Hm; [|by intros ?%elem_of_nil].
    rewrite list_elem_of_singleton. intros ->.
    apply match_here_sound in Hm as (Hm & rest & Hrest).
    split; [done|]. by exists "", rest.
  - assert (Hlater : ∀ k', m ∈ re.findall_from p k' s →
                            matches p m ∧ substring m (String c s)).
    { intros k' (Hm & a & b & ->)%IH. split; [done|]. by exists (String c a), b. }
    destruct k as [|k]; simpl; [|by apply Hlater].
    destruct (re.match_here p (String c s)) as [m'|] eqn:Hm; [|by apply Hlater].
    rewrite elem_of_cons. intros [->|Hin]; [|by eapply Hlater].
    apply match_here_sound in Hm as (Hm & rest & Hrest).
    split; [done|]. by exists "", rest.
Qed.


End matcher.

(** *** The shape of the printed bytes *)

Section repr.

Variable q : ascii.
Hypothesis Hq : is_quote q.

Lemma repr_byte_shape_all ch : repr_byte_shape q ch = true.
Proof using Hq.
  destruct Hq as [-> | ->];
    destruct ch as [[] [] [] [] [] [] [] []]; vm_compute; reflexivity.
Qed.

Lemma repr_body_String ch c :
  repr_body q (String ch c) = repr_byte q ch +:+ repr_body q c.
Proof. reflexivity. Qed.

Lemma repr_body_app a b : repr_body q (a +:+ b) = repr_body q a +:+ repr_body q b.
Proof.
  induction a as [|ch a IH]; [done|].
  by rewrite str_app_cons, !repr_body_String, IH, str_app_assoc.
Qed.

(** A character other than the backslash at the head of the text stands
    for itself. *)
Lemma head_plain c l t :
  repr_body q c = String l t → l ≠ backslash →
  ∃ c', c = String l c' ∧ t = repr_body q c' ∧ repr_byte q l = String l "".
Proof using Hq.
  destruct c as [|ch c]; [done|]. rewrite repr_body_String.
  pose proof (repr_byte_shape_all ch) as Hs. unfold repr_byte_shape in Hs.
  destruct (repr_byte q ch) as [|a [|e [|h1 [|h2 [|]]]]] eqn:Hb; try done.
  - apply andb_true_iff in Hs as [->%Ascii.eqb_eq _].
    rewrite str_app_cons, str_app_nil_l. intros [= <- <-] _. eauto.
  - apply andb_true_iff in Hs as [->%Ascii.eqb_eq _].
    rewrite str_app_cons. by intros [= <- _] [].
  - rewrite !andb_true_iff in Hs. destruct Hs as [[[->%Ascii.eqb_eq _] _] _].
    rewrite str_app_cons. by intros [= <- _] [].
Qed.

(** A backslash at the head opens an escape. *)
Lemma head_escape c t :
  repr_body q c = String backslash t →
  ∃ ch c', c = String ch c' ∧
    ((∃ e, t = String e (repr_body q c') ∧ esc2 q e = true
           ∧ repr_byte q ch = String backslash (String e ""))
     ∨ (∃ h1 h2, t = String "x" (String h1 (String h2 (repr_body q c')))
           ∧ is_hex h1 = true ∧ is_hex h2 = true
           ∧ repr_byte q ch
             = String backslash (String "x" (String h1 (String h2 ""))))).
Proof using Hq.
  destruct c as [|ch c]; [done|]. rewrite repr_body_String.
  pose proof (repr_byte_shape_all ch) as Hs. unfold repr_byte_shape in Hs.
  destruct (repr_byte q ch) as [|a [|e [|h1 [|h2 [|]]]]] eqn:Hb; try done.
  - apply andb_true_iff in Hs as [_ Hs]. rewrite str_app_cons.
    intros [= -> _]. by rewrite Ascii.eqb_refl in Hs.
  - apply andb_true_iff in Hs as [->%Ascii.eqb_eq He].
    rewrite !str_app_cons, str_app_nil_l. intros [= <-].
    exists ch, c. split; [done|]. left. by exists e.
  - rewrite !andb_true_iff in Hs.
    destruct Hs as [[[->%Ascii.eqb_eq ->%Ascii.eqb_eq] H1] H2].
    rewrite !str_app_cons, str_app_nil_l. intros [= <-].
    exists ch, c. split; [done|]. right. by exists h1, h2.
Qed.

(** Where the text is cut in front of a character that no escape holds
    behind its backslash, the bytes are cut as well. *)
Lemma cut_align c pre l t :
  esc_tail q l = false →
  pre +:+ String l t = repr_body q c →
  ∃ a c2, c = a +:+ c2 ∧ pre = repr_body q a ∧ String l t = repr_body q c2.
Proof using Hq.
  intros Hl. unfold esc_tail in Hl. rewrite !orb_false_iff in Hl.
  destruct Hl as [[Hl2 Hlx] Hlh].
  revert pre. induction c as [|ch c IH]; intros pre Heq.
  { by destruct pre. }
  destruct pre as [|x pre].
  { exists "", (String ch c). by rewrite !str_app_nil_l in *. }
  rewrite str_app_cons in Heq. symmetry in Heq.
  destruct (decide (x = backslash)) as [->|Hx].
  - apply head_escape in Heq as (ch' & c' & [= <- <-] & Hcase).
    destruct Hcase as [(e & Ht & He & Hb)|(h1 & h2 & Ht & H1 & H2 & Hb)].
    + destruct pre as [|y pre].
      { rewrite str_app_nil_l in Ht. injection Ht as -> _. congruence. }
      rewrite str_app_cons in Ht. injection Ht as -> Ht.
      destruct (IH _ Ht) as (a & c2 & -> & -> & Hc2).
      exists (String ch a), c2. by rewrite repr_body_String, Hb.
    + destruct pre as [|y1 [|y2 [|y3 pre]]];
        rewrite ?str_app_cons, ?str_app_nil_l in Ht.
      * injection Ht as -> _. by rewrite Ascii.eqb_refl in Hlx.
      * injection Ht as _ -> _. congruence.
      * injection Ht as _ _ -> _. congruence.
      * injection Ht as -> -> -> Ht.
        destruct (IH _ Ht) as (a & c2 & -> & -> & Hc2).
        exists (String ch a), c2. by rewrite repr_body_String, Hb.
  - apply head_plain in Heq as (c' & [= -> ->] & Ht & Hb); [|done].
    destruct (IH _ Ht) as (a & c2 & -> & -> & Hc2).
    exists (String x a), c2. by rewrite repr_body_String, Hb.
Qed.

(** A run of characters without a backslash stands for itself. *)
Lemma lits_align lit c t :
  PyStr.contains backslash lit = false →
  lit +:+ t = repr_body q c →
  ∃ c', c = lit +:+ c' ∧ t = repr_body q c' ∧ repr_body q lit = lit.
Proof using Hq.
  revert c. induction lit as [|l lit IH]; intros c Hl Heq.
  { exists c. by rewrite !str_app_nil_l in *. }
  simpl in Hl. apply orb_false_iff in Hl as [Hl Hlit].
  rewrite str_app_cons in Heq. symmetry in Heq.
  apply head_plain in Heq as (c' & -> & Ht & Hb).
  2:{ intros ->. by rewrite Ascii.eqb_refl in Hl. }
  destruct (IH _ Hlit Ht) as (c'' & -> & -> & Hr).
  exists c''. by rewrite repr_body_String, Hb, Hr.
Qed.

(** Any one character, followed by one that opens no escape tail, stands
    for itself too. *)
Lemma wild_align c x l t :
  esc2 q l = false → l ≠ "x"%char →
  String x (String l t) = repr_body q c →
  ∃ c', c = String x c' ∧ String l t = repr_body q c'
        ∧ repr_byte q x = String x "".
Proof using Hq.
  intros Hl Hlx Heq. symmetry in Heq.
  destruct (decide (x = backslash)) as [->|Hx].
  - apply head_escape in Heq as (ch' & c' & _ & Hcase).
    destruct Hcase as [(e & [= -> _] & He & _)|(h1 & h2 & [= -> _] & _)];
      congruence.
  - apply head_plain in Heq as (c' & -> & Ht & Hb); eauto.
Qed.

Lemma contains_repr_body a :
  PyStr.contains dquote (repr_body q a) = false →
  PyStr.contains dquote a = false.
Proof using Hq.
  induction a as [|ch a IH]; [done|].
  rewrite repr_body_String, contains_app. intros [Hb Ha]%orb_false_iff.
  simpl. rewrite (IH Ha), orb_false_r.
  destruct (Ascii.eqb_spec ch dquote) as [->|]; [|done].
  destruct Hq as [-> | ->]; vm_compute in Hb; done.
Qed.

End repr.

(** *** The download pattern *)

Section pattern.

Lemma matches_lits_inv lit p s :
  matches (re.lits lit ++ p) s → ∃ t, s = lit +:+ t ∧ matches p t.
Proof.
  revert s. induction lit as [|l lit IH]; intros s; simpl.
  { intros H. by exists s. }
  inversion 1 as [|k p' c' s' Hk Hm| |]; subst.
  apply Ascii.eqb_eq in Hk as ->.
  apply IH in Hm as (t & -> & Ht). by exists t.
Qed.

Lemma matches_lits lit p t : matches p t → matches (re.lits lit ++ p) (lit +:+ t).
Proof.
  intros Ht. induction lit as [|l lit IH]; [done|].
  simpl. rewrite str_app_cons. constructor; [apply Ascii.eqb_refl|done].
Qed.

Lemma matches_one_inv k p s :
  matches (re.One k :: p) s →
  ∃ x t, s = String x t ∧ re.cls_match k x = true ∧ matches p t.
Proof. inversion 1; subst. eauto. Qed.

Lemma matches_star k p a t :
  (∀ x, PyStr.contains x a = true → re.cls_match k x = true) →
  matches p t → matches (re.Star k :: p) (a +:+ t).
Proof.
  intros Ha Ht. induction a as [|x a IH].
  - by constructor.
  - rewrite str_app_cons. apply matches_star_step.
    + apply Ha. simpl. by rewrite Ascii.eqb_refl.
    + apply IH. intros y Hy. apply Ha. simpl. by rewrite Hy, orb_true_r.
Qed.

Lemma matches_star_class k p s :
  matches (re.Star k :: p) s →
  ∃ a t, s = a +:+ t ∧ matches p t
         ∧ ∀ x, PyStr.contains x a = true → re.cls_match k x = true.
Proof.
  intros H. remember (re.Star k :: p) as p0 eqn:Hp0.
  induction H as [| |k' p1 s H _|k' p1 c s Hk H IH]; try done.
  - injection Hp0 as -> ->. exists "", s. by repeat split.
  - injection Hp0 as -> ->.
    destruct (IH eq_refl) as (a & t & -> & Ht & Ha).
    exists (String c a), t. split; [done|]. split; [done|].
    intros x. simpl. intros [Hx|Hx]%orb_true_iff; [|by apply Ha].
    by apply Ascii.eqb_eq in Hx as ->.
Qed.

Lemma not_dquote_class a :
  (∀ x, PyStr.contains x a = true → re.cls_match (re.NotIn [ dquote ]) x = true)
  ↔ PyStr.contains dquote a = false.
Proof.
  split.
  - intros Ha. destruct (PyStr.contains dquote a) eqn:Hd; [|done].
    by apply Ha in Hd.
  - intros Hd x Hx. simpl. rewrite orb_false_r.
    destruct (Ascii.eqb_spec x dquote) as [->|]; [congruence|done].
Qed.

Lemma matches_download s :
  matches MICROSOFT_DOWNLOAD_REGEX s ↔
  ∃ x y mid, s = download_link x y mid
             ∧ x ≠ "010"%char ∧ y ≠ "010"%char
             ∧ PyStr.contains dquote mid = false.
Proof.
  unfold MICROSOFT_DOWNLOAD_REGEX, download_link. split.
  - intros H.
    apply matches_lits_inv in H as (t1 & -> & H).
    apply matches_one_inv in H as (x & t2 & -> & Hx & H).
    apply matches_lits_inv in H as (t3 & -> & H).
    apply matches_one_inv in H as (y & t4 & -> & Hy & H).
    apply matches_lits_inv in H as (t5 & -> & H).
    apply matches_star_class in H as (mid & t6 & -> & H & Hmid).
    apply matches_one_inv in H as (d & t7 & -> & Hd & H).
    rewrite <- (List.app_nil_r (re.lits "json")) in H.
    apply matches_lits_inv in H as (t8 & -> & H).
    inversion H; subst.
    simpl in Hd. rewrite orb_false_r in Hd. apply Ascii.eqb_eq in Hd as ->.
    exists x, y, mid. split; [done|].
    simpl in Hx, Hy. apply negb_true_iff, Ascii.eqb_neq in Hx, Hy.
    by rewrite <- not_dquote_class.
  - intros (x & y & mid & -> & Hx & Hy & Hmid).
    apply matches_lits. constructor; [by apply negb_true_iff, Ascii.eqb_neq|].
    apply matches_lits. constructor; [by apply negb_true_iff, Ascii.eqb_neq|].
    apply matches_lits. apply matches_star; [by apply not_dquote_class|].
    constructor; [done|]. rewrite <- (List.app_nil_r (re.lits "json")).
    exact (matches_lits "json" [] "" matches_nil).
Qed.

End pattern.

(** *** From the printed bytes back to the bytes *)

Section back.

Variable q : ascii.
Hypothesis Hq : is_quote q.

Lemma cut_align_head c pre r l :
  str_head r = Some l → esc_tail q l = false →
  pre +:+ r = repr_body q c →
  ∃ a c2, c = a +:+ c2 ∧ pre = repr_body q a ∧ r = repr_body q c2.
Proof using Hq.
  destruct r as [|l' t]; [done|]. intros [= ->]. by apply cut_align.
Qed.

Lemma wild_align_head c x r l :
  str_head r = Some l → esc2 q l = false → l ≠ "x"%char →
  String x r = repr_body q c →
  ∃ c', c = String x c' ∧ r = repr_body q c' ∧ repr_byte q x = String x "".
Proof using Hq.
  destruct r as [|l' t]; [done|]. intros [= ->]. by apply wild_align.
Qed.

Lemma esc_tail_h : esc_tail q "h" = false.
Proof using Hq. destruct Hq as [-> | ->]; reflexivity. Qed.

Lemma esc_tail_dot : esc_tail q "." = false.
Proof using Hq. destruct Hq as [-> | ->]; reflexivity. Qed.

Lemma esc2_m : esc2 q "m" = false.
Proof using Hq. destruct Hq as [-> | ->]; reflexivity. Qed.

Lemma esc2_c : esc2 q "c" = false.
Proof using Hq. destruct Hq as [-> | ->]; reflexivity. Qed.

(** A match inside the printed body is the print of a match inside the
    bytes. *)
Lemma repr_match_back c s :
  substring s (repr_body q c) → matches MICROSOFT_DOWNLOAD_REGEX s →
  ∃ m, substring m c ∧ matches MICROSOFT_DOWNLOAD_REGEX m ∧ s = repr_body q m.
Proof using Hq.
  intros (pre & post & Hsub) (x & y & mid & -> & Hx & Hy & Hmid)%matches_download.
  unfold download_link in *. symmetry in Hsub.
  set (A := "https://download") in *. set (B := "microsoft") in *.
  set (C := "com/download") in *. set (J := ".json") in *.
  repeat (rewrite str_app_assoc in Hsub || rewrite str_app_cons in Hsub).
  apply (cut_align_head _ _ _ "h"%char) in Hsub as (a & c1 & -> & -> & H);
    [|done|apply esc_tail_h].
  apply lits_align in H as (c2 & -> & H & R1); [|done|done].
  apply (wild_align_head _ _ _ "m"%char) in H as (c3 & -> & H & Rx);
    [|done|apply esc2_m|done].
  apply lits_align in H as (c4 & -> & H & R2); [|done|done].
  apply (wild_align_head _ _ _ "c"%char) in H as (c5 & -> & H & Ry);
    [|done|apply esc2_c|done].
  apply lits_align in H as (c6 & -> & H & R3); [|done|done].
  apply (cut_align_head _ _ _ "."%char) in H as (amid & c7 & -> & -> & H);
    [|done|apply esc_tail_dot].
  apply lits_align in H as (c8 & -> & H & R4); [|done|done].
  apply contains_repr_body in Hmid; [|done].
  exists (download_link x y amid). split; [|split].
  - exists a, c8. unfold download_link. fold A B C J.
    by repeat (rewrite str_app_assoc || rewrite str_app_cons).
  - apply matches_download. by exists x, y, amid.
  - unfold download_link. fold A B C J.
    repeat (rewrite repr_body_app || rewrite repr_body_String).
    rewrite R1, R2, R3, R4, Rx, Ry.
    by repeat (rewrite str_app_assoc || rewrite str_app_cons).
Qed.

End back.

(** *** What the scan of a printed body finds *)

Section locate.

Lemma is_quote_quote_of c : is_quote (quote_of c).
Proof. unfold is_quote, quote_of. case_match; auto. Qed.

Lemma str_snoc_inv b : b = "" ∨ ∃ b' z, b = b' +:+ String z "".
Proof.
  induction b as [|x b IH]; [by left|]. right.
  destruct IH as [->|(b' & z & ->)].
  - by exists "", x.
  - by exists (String x b'), z.
Qed.

Lemma str_snoc_inj a b x y :
  a +:+ String x "" = b +:+ String y "" → a = b ∧ x = y.
Proof.
  revert b. induction a as [|c a IH]; intros [|d b]; rewrite ?str_app_cons, ?str_app_nil_l.
  - by intros [= ->].
  - intros [= -> H]. by destruct b.
  - intros [= -> H]. by destruct a.
  - intros [= -> H]. apply IH in H as [-> ->]. done.
Qed.

(** A match found in [repr b] lies between the quotes. *)
Lemma match_in_body c s :
  substring s (repr c) → matches MICROSOFT_DOWNLOAD_REGEX s →
  substring s (repr_body (quote_of c) c).
Proof.
  pose proof (is_quote_quote_of c) as Hq. unfold repr.
  generalize dependent (quote_of c). intros q Hq.
  intros (a & b & Hsub) (x & y & mid & Hs & _)%matches_download.
  assert (Hend : ∃ s0, download_link x y mid = s0 +:+ "n").
  { exists ("https://download" +:+ String x ("microsoft" +:+ String y
              ("com/download" +:+ mid +:+ ".jso"))).
    unfold download_link.
    set (A := "https://download"). set (B := "microsoft"). set (C := "com/download").
    repeat (rewrite str_app_assoc || rewrite str_app_cons). done. }
  assert (Hhd : str_head (download_link x y mid +:+ b) = Some "h"%char) by done.
  rewrite <- Hs in Hhd. destruct Hend as (s0 & Hend). rewrite <- Hs in Hend.
  clear Hs x y mid.
  destruct a as [|a0 [|a1 a]];
    rewrite ?str_app_cons, ?str_app_nil_l in Hsub.
  - rewrite <- Hsub in Hhd. done.
  - injection Hsub as _ Hsub. rewrite <- Hsub in Hhd.
    destruct Hq as [-> | ->]; discriminate Hhd.
  - injection Hsub as _ _ Hsub.
    destruct (str_snoc_inv b) as [->|(b' & z & ->)].
    + subst s.
      rewrite str_app_nil_r, <- str_app_assoc in Hsub.
      apply str_snoc_inj in Hsub as [_ Hsub].
      destruct Hq as [-> | ->]; discriminate Hsub.
    + rewrite <- !str_app_assoc in Hsub.
      apply str_snoc_inj in Hsub as [-> _].
      exists a, b'. by rewrite str_app_assoc.
Qed.




(** Every match the scan reports is the print of a match in the bytes. *)
Lemma findall_repr_back c s :
  s ∈ re.findall_from MICROSOFT_DOWNLOAD_REGEX 0 (repr c) →
  ∃ m, substring m c ∧ matches MICROSOFT_DOWNLOAD_REGEX m
       ∧ s = repr_body (quote_of c) m.
Proof.
  intros [Hm Hsub]%findall_from_sound.
  apply repr_match_back; [apply is_quote_quote_of| |done].
  by apply match_in_body.
Qed.

Lemma findall_none c :
  (∀ m, substring m c → ¬ matches MICROSOFT_DOWNLOAD_REGEX m) →
  re.findall_from MICROSOFT_DOWNLOAD_REGEX 0 (repr c) = [].
Proof.
  intros Hnone.
  destruct (re.findall_from _ _ _) as [|s l] eqn:Hf; [done|].
  assert (Hs : s ∈ re.findall_from MICROSOFT_DOWNLOAD_REGEX 0 (repr c)).
  { rewrite Hf. left. }
  apply findall_repr_back in Hs as (m & Hsub & Hm & _). by destruct (Hnone m).
Qed.


End locate.

(** *** Occurrences in a given text *)

Section occurrences.

Lemma prefix_app P r : String.prefix P (P +:+ r) = true.
Proof.
  induction P as [|c P IH]; [by destruct r|].
  rewrite str_app_cons. simpl. by destruct (ascii_dec c c).
Qed.

Lemma str_split_at a t :
  str_take (String.length a) (a +:+ t) = a
  ∧ str_drop (String.length a) (a +:+ t) = t.
Proof.
  induction a as [|c a [IH1 IH2]].
  - rewrite str_app_nil_l. by destruct t.
  - rewrite str_app_cons. simpl. by rewrite IH1, IH2.
Qed.

Lemma occurrence_at P s i0 a r :
  starts_only_at P s i0 = true → s = a +:+ P +:+ r →
  ∃ i, i0 = Some i ∧ a = str_take i s ∧ P +:+ r = str_drop i s.
Proof.
  intros Ht Hs. unfold starts_only_at in Ht. rewrite forallb_forall in Ht.
  destruct (str_split_at a (P +:+ r)) as [Htake Hdrop].
  rewrite <- Hs in Htake, Hdrop.
  assert (Hin : In (String.length a) (seq 0 (S (String.length s)))).
  { apply in_seq. rewrite Hs, str_length_app. lia. }
  specialize (Ht _ Hin). rewrite Hdrop, prefix_app in Ht.
  destruct i0 as [j|]; [|done].
  apply Nat.eqb_eq in Ht as <-. by exists (String.length a).
Qed.


Lemma nothing_in_plain_page m :
  substring m plain_page → ¬ matches MICROSOFT_DOWNLOAD_REGEX m.
Proof.
  intros (a & b & Hsub) (x & y & mid & -> & _)%matches_download.
  unfold download_link in *.
  rewrite !str_app_assoc in Hsub.
  apply (occurrence_at "https://download" plain_page None) in Hsub
    as (? & [=] & _); by vm_compute.
Qed.

End occurrences.

(** *** A quote behind the text *)

Section closing_quote.

Variable q : ascii.






Hypothesis Hq : is_quote q.



Lemma match_here_download_nil : re.match_here MICROSOFT_DOWNLOAD_REGEX "" = None.
Proof. reflexivity. Qed.


End closing_quote.

(** *** The scan of the page itself *)

Section page_text.





End page_text.

(** *** The pages printed as they are *)

Section unescaped.

Variable q : ascii.
Hypothesis Hq : is_quote q.

Lemma repr_byte_plain ch :
  repr_byte q ch = String ch "" ↔ plain_byte q ch = true.
Proof using Hq.
  destruct Hq as [-> | ->];
    destruct ch as [[] [] [] [] [] [] [] []]; vm_compute;
    split; intros H; first [ reflexivity | discriminate H ].
Qed.

Lemma repr_body_length c :
  (String.length c ≤ String.length (repr_body q c))%nat.
Proof.
  induction c as [|ch c IH]; [done|].
  rewrite repr_body_String, str_length_app.
  assert (1 ≤ String.length (repr_byte q ch))%nat.
  { unfold repr_byte. repeat case_match; simpl; lia. }
  simpl. lia.
Qed.

(** [repr_body] leaves a text as it is exactly when it escapes no byte. *)
Lemma repr_body_fixed c :
  repr_body q c = c ↔ ∀ ch, PyStr.contains ch c = true → plain_byte q ch = true.
Proof using Hq.
  induction c as [|ch c IH]; [done|]. rewrite repr_body_String. split.
  - intros H.
    assert (Hch : plain_byte q ch = true).
    { destruct (decide (ch = backslash)) as [->|Hbs].
      - assert (Hr : repr_byte q backslash = String backslash (String backslash ""))
          by (destruct Hq as [-> | ->]; reflexivity).
        rewrite Hr, !str_app_cons, str_app_nil_l in H. injection H as H.
        pose proof (repr_body_length c) as Hlen. rewrite <- H in Hlen at 1.
        simpl in Hlen. lia.
      - rewrite <- repr_body_String in H.
        apply (head_plain q Hq) in H as (c' & _ & _ & Hr); [|done].
        by apply repr_byte_plain. }
    apply repr_byte_plain in Hch as Hr. rewrite Hr, str_app_cons, str_app_nil_l in H.
    injection H as H. intros ch0. simpl.
    intros [->%Ascii.eqb_eq|Hin]%orb_true_iff; [done|]. by apply IH.
  - intros H.
    assert (Hr : repr_byte q ch = String ch "").
    { apply repr_byte_plain, H. simpl. by rewrite Ascii.eqb_refl. }
    rewrite Hr, str_app_cons, str_app_nil_l. f_equal. apply IH.
    intros ch0 Hin. apply H. simpl. by rewrite Hin, orb_true_r.
Qed.

End unescaped.

(** The pages that [str] prints as they are: every byte is printable ASCII
    other than the backslash, and an apostrophe occurs only if no double
    quote does. *)
Lemma prints_as_itself_iff c :
  prints_as_itself c = true ↔
  (∀ ch, PyStr.contains ch c = true →
         (32 ≤ N_of_ascii ch < 127)%N ∧ ch ≠ backslash)
  ∧ (PyStr.contains squote c = true → PyStr.contains dquote c = false).
Proof.
  unfold prints_as_itself. rewrite String.eqb_eq.
  rewrite (repr_body_fixed _ (is_quote_quote_of c)).
  assert (Hplain : ∀ q ch, plain_byte q ch = true ↔
            ((32 ≤ N_of_ascii ch < 127)%N ∧ ch ≠ backslash) ∧ ch ≠ q).
  { intros q ch. unfold plain_byte.
    rewrite !andb_true_iff, !negb_true_iff, !Ascii.eqb_neq, N.leb_le, N.ltb_lt.
    tauto. }
  unfold quote_of.
  destruct (PyStr.contains squote c) eqn:Hs, (PyStr.contains dquote c) eqn:Hd;
    cbn [andb negb]; split.
  - intros H. apply H, Hplain in Hs as [_ Hs]. done.
  - intros [_ H]. by specialize (H eq_refl).
  - intros H. split; [|done]. intros ch Hin. by apply H, Hplain in Hin as [? _].
  - intros [H _] ch Hin. apply Hplain. split; [by apply H|].
    intros ->. by rewrite Hd in Hin.
  - intros H. split; [|done]. intros ch Hin. by apply H, Hplain in Hin as [? _].
  - intros [H _] ch Hin. apply Hplain. split; [by apply H|].
    intros ->. by rewrite Hs in Hin.
  - intros H. split; [|done]. intros ch Hin. by apply H, Hplain in Hin as [? _].
  - intros [H _] ch Hin. apply Hplain. split; [by apply H|].
    intros ->. by rewrite Hs in Hin.
Qed.

(** *** Unions of expansions *)

Section array.

Lemma array_loop_Ok (l : list string) (s : gset string) :
  Forall (λ B, is_ok (IPv4Network B) = true) l →
  for_in l (λ ips ip_range, s' ← get_all_ips_from_cidr ip_range; Ok (ips ∪ s')) s
  = Ok (s ∪ ⋃ (expansion <$> l)).
Proof.
  intros Hl. revert s. induction Hl as [|B l HB _ IH]; intros s; simpl.
  - f_equal. by rewrite (right_id_L ∅ (∪)).
  - destruct (IPv4Network B) as [net|] eqn:Hnet; [|done].
    unfold expansion at 1. rewrite (get_all_ips_from_cidr_Ok _ _ Hnet).
    unfold mbind at 1, result_bind at 1. unfold mbind at 1, result_bind at 1.
    rewrite IH. by rewrite (assoc_L (∪)).
Qed.

Lemma get_all_ips_from_cidr_array_Ok l :
  Forall (λ B, is_ok (IPv4Network B) = true) l →
  get_all_ips_from_cidr_array l = Ok (⋃ (expansion <$> l)).
Proof.
  intros Hl. unfold get_all_ips_from_cidr_array.
  rewrite array_loop_Ok by done. by rewrite (left_id_L ∅ (∪)).
Qed.

Lemma union_list_perm (Xs Ys : list (gset string)) : Xs ≡ₚ Ys → ⋃ Xs = ⋃ Ys.
Proof.
  induction 1 as [|X Xs Ys _ IH|X Y Xs|Xs Ys Zs _ IH1 _ IH2]; simpl.
  - done.
  - by rewrite IH.
  - by rewrite !(assoc_L (∪)), (comm_L (∪) Y X).
  - by rewrite IH1.
Qed.

End array.

(** *** The scan of a range document *)

Section search.

Variable ip : string.

Lemma search_block_scannable cat search b :
  block_scannable b = true →
  search_block ip cat search b
  = Ok (if block_matches ip b then search ++ [ cat ] else search).
Proof.
  unfold search_block, block_scannable, block_matches.
  destruct (IPv4Network b) as [cidr|e]; simpl.
  - intros _. destruct (IPv4Address ip) as [addr|e] eqn:Hip; simpl.
    + by destruct (contains cidr addr).
    + by apply IPv4Address_raises in Hip as ->.
  - by intros ->.
Qed.

Lemma search_blocks_scannable cat search ranges :
  Forall (λ b, block_scannable b = true) ranges →
  for_in ranges (search_block ip cat) search
  = Ok (search ++ replicate
          (length (filter (λ b, block_matches ip b = true) ranges)) cat).
Proof.
  intros Hr. revert search. induction Hr as [|b ranges Hb _ IH]; intros search.
  - simpl. by rewrite app_nil_r.
  - cbn [for_in]. rewrite search_block_scannable by done.
    unfold mbind, result_bind. rewrite IH.
    destruct (block_matches ip b) eqn:Hm.
    + rewrite filter_cons_True by done. simpl. by rewrite <- app_assoc.
    + rewrite filter_cons_False; [done|]. by rewrite Hm.
Qed.

Lemma search_categories_scannable search cats :
  Forall (λ cat, Forall (λ b, block_scannable b = true) (blocks cat)) cats →
  for_in cats
    (λ search cat,
       for_in (addressPrefixes (properties cat)) (search_block ip cat) search)
    search
  = Ok (search ++ flat_map (λ cat, replicate (hits ip cat) cat) cats).
Proof.
  intros Hs. revert search.
  induction Hs as [|cat cats Hcat _ IH]; intros search.
  - simpl. by rewrite app_nil_r.
  - cbn [for_in flat_map]. rewrite search_blocks_scannable by done.
    unfold mbind, result_bind. rewrite IH.
    unfold hits, blocks. by rewrite <- app_assoc.
Qed.

Lemma reverse_search_ip_in_azure_scannable doc :
  doc_scannable doc →
  reverse_search_ip_in_azure ip doc
  = Ok (flat_map (λ cat, replicate (hits ip cat) cat) (values doc)).
Proof.
  intros Hs. unfold reverse_search_ip_in_azure.
  by rewrite search_categories_scannable.
Qed.

Lemma search_block_Ok cat search b res :
  search_block ip cat search b = Ok res → block_scannable b = true.
Proof.
  unfold search_block, block_scannable.
  destruct (IPv4Network b) as [cidr|e]; [done|].
  by destruct e.
Qed.

Lemma search_blocks_Ok cat search ranges res :
  for_in ranges (search_block ip cat) search = Ok res →
  Forall (λ b, block_scannable b = true) ranges.
Proof.
  revert search. induction ranges as [|b ranges IH]; intros search; [done|].
  cbn [for_in]. rewrite bind_Ok. intros (search' & Hb & Hrest).
  constructor; [by eapply search_block_Ok|by eapply IH].
Qed.

(** The scan returns exactly for the documents all of whose blocks parse or
    fail with the class the handler names. *)
Lemma reverse_search_returns_iff_scannable doc :
  is_ok (reverse_search_ip_in_azure ip doc) = true ↔ doc_scannable doc.
Proof.
  split.
  - unfold reverse_search_ip_in_azure, doc_scannable.
    generalize (@nil category). induction (values doc) as [|cat cats IH];
      intros search; [done|].
    cbn [for_in].
    destruct (for_in (addressPrefixes (properties cat)) _ search)
      as [search'|e] eqn:Hcat; [|done].
    cbn [mbind result_bind]. unfold mbind, result_bind. intros Hrest.
    constructor; [by eapply search_blocks_Ok|by eapply IH].
  - intros Hs. by rewrite reverse_search_ip_in_azure_scannable.
Qed.

End search.

(** *** Counting and the scan with an address that does not parse *)

Section counting.

Lemma count_occ_replicate (n : nat) (x y : category) :
  count_occ category_eq_dec (replicate n x) y
  = if decide (x = y) then n else 0%nat.
Proof.
  induction n as [|n IH]; simpl; [by case_decide|].
  rewrite IH. destruct (category_eq_dec x y), (decide (x = y)); done.
Qed.

Lemma count_occ_flat_map (h : category → nat) (l : list category) (y : category) :
  count_occ category_eq_dec (flat_map (λ cat, replicate (h cat) cat) l) y
  = (h y * count_occ category_eq_dec l y)%nat.
Proof.
  induction l as [|x l IH]; simpl; [lia|].
  rewrite count_occ_app, IH, count_occ_replicate.
  destruct (category_eq_dec x y), (decide (x = y)); subst; try done; lia.
Qed.

Lemma flat_map_no_hits (h : category → nat) (l : list category) :
  Forall (λ cat, h cat = 0%nat) l →
  flat_map (λ cat, replicate (h cat) cat) l = [].
Proof.
  induction 1 as [|x l Hx _ IH]; simpl; [done|]. by rewrite Hx, IH.
Qed.

End counting.

Section invalid_address.

Variables (ip : string) (e : exn).
Hypothesis Hip : IPv4Address ip = Raise e.

Lemma search_block_invalid cat search b :
  untouched search (search_block ip cat search b).
Proof using Hip.
  unfold untouched, search_block.
  destruct (IPv4Network b) as [cidr|e1]; simpl.
  - rewrite Hip. simpl. apply IPv4Address_raises in Hip as ->. by left.
  - destruct e1; simpl;
      first [ by left | right; eexists; split; [|done]; discriminate ].
Qed.

Lemma search_blocks_invalid cat search ranges :
  untouched search (for_in ranges (search_block ip cat) search).
Proof using Hip.
  induction ranges as [|b ranges IH]; [by left|].
  cbn [for_in].
  destruct (search_block_invalid cat search b) as [->|(e' & He' & ->)]; [done|].
  right. by exists e'.
Qed.

Lemma search_categories_invalid search cats :
  untouched search
    (for_in cats
       (λ search cat,
          for_in (addressPrefixes (properties cat)) (search_block ip cat) search)
       search).
Proof using Hip.
  induction cats as [|cat cats IH]; [by left|].
  cbn [for_in].
  destruct (search_blocks_invalid cat search (addressPrefixes (properties cat)))
    as [->|(e' & He' & ->)]; [done|].
  right. by exists e'.
Qed.

End invalid_address.

(** *** Blocks whose error is not caught *)

Section search_errors.

Variable ip : string.

Lemma search_block_Raise cat search b e :
  IPv4Network b = Raise e → e ≠ AddressValueError →
  search_block ip cat search b = Raise e.
Proof.
  intros Hb He. unfold search_block. rewrite Hb. simpl. by destruct e.
Qed.

Lemma search_blocks_Raise cat search bpre b bpost e :
  Forall (λ b, block_scannable b = true) bpre →
  IPv4Network b = Raise e → e ≠ AddressValueError →
  for_in (bpre ++ b :: bpost) (search_block ip cat) search = Raise e.
Proof.
  intros Hpre Hb He. revert search.
  induction Hpre as [|b' bpre Hb' _ IH]; intros search; cbn [app for_in].
  - by rewrite (search_block_Raise _ _ _ e).
  - apply bind_Raise. right. rewrite search_block_scannable by done.
    eexists. split; [done|]. apply IH.
Qed.

Lemma search_categories_Raise search cpre cat cpost bpre b bpost e :
  Forall cat_scannable cpre →
  blocks cat = bpre ++ b :: bpost →
  Forall (λ b, block_scannable b = true) bpre →
  IPv4Network b = Raise e → e ≠ AddressValueError →
  for_in (cpre ++ cat :: cpost)
    (λ search cat,
       for_in (addressPrefixes (properties cat)) (search_block ip cat) search)
    search
  = Raise e.
Proof.
  intros Hcpre Hcat Hbpre Hb He. revert search.
  induction Hcpre as [|c cpre Hc _ IH]; intros search; cbn [app for_in].
  - unfold blocks in Hcat. rewrite Hcat.
    by rewrite (search_blocks_Raise _ _ _ _ _ e).
  - apply bind_Raise. right. rewrite search_blocks_scannable by done.
    eexists. split; [done|]. apply IH.
Qed.

End search_errors.

Section unscannable.

(** A list of blocks splits at the first one whose error the handler of the
    scan does not name, if it has one. *)
Lemma first_unscannable_block (l : list string) :
  Forall (λ b, block_scannable b = true) l
  ∨ ∃ bpre b bpost e,
      l = bpre ++ b :: bpost ∧ Forall (λ b, block_scannable b = true) bpre
      ∧ IPv4Network b = Raise e ∧ e ≠ AddressValueError.
Proof.
  induction l as [|b l IH]; [by left|].
  destruct (block_scannable b) eqn:Hb.
  - destruct IH as [IH|(bpre & b' & bpost & e & -> & Hpre & Hb' & He)].
    + left. by constructor.
    + right. exists (b :: bpre), b', bpost, e. by repeat constructor.
  - right. unfold block_scannable in Hb.
    destruct (IPv4Network b) as [|e] eqn:Hnet; [done|].
    exists [], b, l, e. split; [done|]. split; [constructor|]. split; [done|].
    intros ->. done.
Qed.

Lemma first_unscannable_category (cats : list category) :
  Forall cat_scannable cats
  ∨ ∃ cpre cat cpost bpre b bpost e,
      cats = cpre ++ cat :: cpost ∧ Forall cat_scannable cpre
      ∧ blocks cat = bpre ++ b :: bpost
      ∧ Forall (λ b, block_scannable b = true) bpre
      ∧ IPv4Network b = Raise e ∧ e ≠ AddressValueError.
Proof.
  induction cats as [|cat cats IH]; [by left|].
  destruct (first_unscannable_block (blocks cat))
    as [Hcat|(bpre & b & bpost & e & Hb & Hpre & Hnet & He)].
  - destruct IH as [IH|(cpre & cat' & cpost & bpre & b & bpost & e
                         & -> & Hcpre & Hb & Hpre & Hnet & He)].
    + left. by constructor.
    + right. exists (cat :: cpre), cat', cpost, bpre, b, bpost, e.
      by repeat constructor.
  - right. exists [], cat, cats, bpre, b, bpost, e. by repeat constructor.
Qed.

(** On a document with a block whose error the handler does not name, the
    scan raises the error of such a block, whatever the address. *)
Lemma reverse_search_unscannable doc :
  ¬ doc_scannable doc →
  ∃ cat b e,
    cat ∈ values doc ∧ b ∈ blocks cat
    ∧ IPv4Network b = Raise e ∧ e ≠ AddressValueError
    ∧ ∀ ip, reverse_search_ip_in_azure ip doc = Raise e.
Proof.
  intros Hnot.
  destruct (first_unscannable_category (values doc))
    as [Hs|(cpre & cat & cpost & bpre & b & bpost & e
            & Hdoc & Hcpre & Hb & Hpre & Hnet & He)]; [done|].
  exists cat, b, e.
  split; [rewrite Hdoc, elem_of_app, elem_of_cons; auto|].
  split; [rewrite Hb, elem_of_app, elem_of_cons; auto|].
  split; [done|]. split; [done|].
  intros ip. unfold reverse_search_ip_in_azure. rewrite Hdoc.
  by eapply search_categories_Raise.
Qed.

End unscannable.

Section download.

Variable requests_get : string → result response.

Lemma get_azure_ip_ranges_download_Ok page r :
  requests_get page = Ok r → raise_for_status r = Ok () →
  get_azure_ip_ranges_download requests_get page
  = Ok (elements (list_to_set
          (re.findall_from MICROSOFT_DOWNLOAD_REGEX 0 (repr (content r)))
        : gset string)).
Proof.
  intros Hget Hstatus. unfold get_azure_ip_ranges_download.
  rewrite !try_except_reraise, Hget. cbn [mbind result_bind].
  unfold mbind, result_bind. by rewrite Hstatus.
Qed.

End download.

(** Host bits below the prefix make [IPv4Network] refuse the string. *)
Lemma host_bits_set_raises B addr mask n nm p :
  _split_addr_prefix B = Ok (addr, mask) →
  IPv4Address addr = Ok n →
  _make_netmask mask = Ok (nm, p) →
  Z.land n nm ≠ n →
  IPv4Network B = Raise ValueError ∧ get_all_ips_from_cidr B = Raise ValueError.
Proof.
  intros Hsplit Haddr Hmask Hbits.
  assert (Hnet : IPv4Network B = Raise ValueError).
  { unfold IPv4Network. rewrite Hsplit. cbn [mbind result_bind].
    unfold mbind, result_bind. rewrite Haddr, Hmask.
    by apply Z.eqb_neq in Hbits as ->. }
  split; [done|]. by apply get_all_ips_from_cidr_Raise.
Qed.

(** ** The properties of the specification *)

(** *** Range Expander *)

(** C6. For every block [B] that [IPv4Network] accepts, with prefix length
    [p], [get_all_ips_from_cidr B] returns a set of exactly [2^(32-p)]
    address strings, and the members are exactly the printed integers of
    [network .. network + 2^(32-p) - 1], each of which reads back as its
    integer.  In particular ["185.56.64.0/24"] expands to the 256 addresses
    [185.56.64.0] through [185.56.64.255]. *)
Theorem get_all_ips_from_cidr_span :
  (∀ B net,
     IPv4Network B = Ok net →
     ∃ ips,
       get_all_ips_from_cidr B = Ok ips
       ∧ Z.of_nat (size ips) = 2 ^ (32 - _prefixlen net)
       ∧ ∀ s, s ∈ ips ↔
              ∃ n, s = _string_from_ip_int n
                   ∧ IPv4Address s = Ok n
                   ∧ network_address net ≤ n
                     ≤ network_address net + 2 ^ (32 - _prefixlen net) - 1)
  ∧ ∃ ips,
      get_all_ips_from_cidr "185.56.64.0/24" = Ok ips
      ∧ size ips = 256%nat
      ∧ ∀ s, s ∈ ips ↔ ∃ i, 0 ≤ i ≤ 255 ∧ s = "185.56.64." +:+ PyStr.str i.
Proof.
  split; [exact get_all_ips_from_cidr_members|].
  destruct (get_all_ips_from_cidr_members _ _ network_24)
    as (ips & Hips & Hsize & Hmem).
  exists ips. split; [done|]. split.
  { apply Nat2Z.inj. rewrite Hsize. reflexivity. }
  assert (Hrow : ∀ i, 0 ≤ i ≤ 255 →
            _string_from_ip_int (3107471360 + i) = "185.56.64." +:+ PyStr.str i).
  { intros i Hi.
    assert (Hrows : _string_from_ip_int <$> seqZ 3107471360 256
                    = (λ i, "185.56.64." +:+ PyStr.str i) <$> seqZ 0 256).
    { vm_compute. reflexivity. }
    apply (f_equal (λ l, l !! Z.to_nat i)) in Hrows.
    rewrite !list_lookup_fmap, !lookup_seqZ_lt in Hrows by lia.
    simpl in Hrows. injection Hrows as Hrows.
    by rewrite !Z2Nat.id, Z.add_0_l in Hrows by lia. }
  intros s. rewrite Hmem. cbn [network_address _prefixlen].
  change (2 ^ (32 - 24)) with 256. split.
  - intros (n & -> & _ & Hn). exists (n - 3107471360). split; [lia|].
    rewrite <- Hrow by lia. f_equal. lia.
  - intros (i & Hi & ->). exists (3107471360 + i). rewrite <- Hrow by done.
    split; [done|]. split; [|lia].
    apply IPv4Address_string_from_ip_int. lia.
Qed.

Lemma get_all_ips_from_cidr_span_witness :
  ∃ ips,
    get_all_ips_from_cidr "10.0.0.0/30" = Ok ips
    ∧ Z.of_nat (size ips) = 2 ^ (32 - 30)
    ∧ ∀ s, s ∈ ips ↔
           ∃ n, s = _string_from_ip_int n
                ∧ IPv4Address s = Ok n
                ∧ 167772160 ≤ n ≤ 167772160 + 2 ^ (32 - 30) - 1.
Proof.
  apply (proj1 get_all_ips_from_cidr_span "10.0.0.0/30"
           (Network 167772160 4294967292 30)).
  vm_compute. reflexivity.
Defined.

(** C7. For a valid block [B], expanding [[B]] and expanding [[B; B]] both
    give what expanding [B] gives; and for every sequence of valid blocks,
    a permutation of it expands to the same set, the union of the
    expansions of its blocks. *)
Theorem get_all_ips_from_cidr_array_laws (B : string) (l l' : list string) :
  valid_block B → Forall valid_block l → l ≡ₚ l' →
  get_all_ips_from_cidr_array [ B ] = get_all_ips_from_cidr B
  ∧ get_all_ips_from_cidr_array [ B; B ] = get_all_ips_from_cidr B
  ∧ ∃ ips,
      get_all_ips_from_cidr_array l = Ok ips
      ∧ get_all_ips_from_cidr_array l' = Ok ips
      ∧ ∀ s, s ∈ ips ↔ ∃ B', B' ∈ l ∧ s ∈ expansion B'.
Proof.
  intros HB Hl Hperm.
  assert (HB' : get_all_ips_from_cidr B = Ok (expansion B)).
  { unfold valid_block in HB. destruct (IPv4Network B) as [net|] eqn:Hnet; [|done].
    unfold expansion. by rewrite (get_all_ips_from_cidr_Ok _ _ Hnet). }
  split; [|split].
  - rewrite get_all_ips_from_cidr_array_Ok by by repeat constructor.
    rewrite HB'. simpl. by rewrite (right_id_L ∅ (∪)).
  - rewrite get_all_ips_from_cidr_array_Ok by by repeat constructor.
    rewrite HB'. simpl. by rewrite (right_id_L ∅ (∪)), (idemp_L (∪)).
  - exists (⋃ (expansion <$> l)).
    split; [by apply get_all_ips_from_cidr_array_Ok|]. split.
    + rewrite get_all_ips_from_cidr_array_Ok by by rewrite <- Hperm.
      f_equal. apply union_list_perm. by rewrite Hperm.
    + intros s. rewrite elem_of_union_list. split.
      * intros (X & (B' & -> & HB'')%list_elem_of_fmap & Hs). eauto.
      * intros (B' & HB'' & Hs). exists (expansion B').
        split; [|done]. apply list_elem_of_fmap. eauto.
Qed.

Lemma get_all_ips_from_cidr_array_laws_witness :
  get_all_ips_from_cidr_array [ "185.56.64.0/30" ]
  = get_all_ips_from_cidr "185.56.64.0/30"
  ∧ get_all_ips_from_cidr_array [ "185.56.64.0/30"; "185.56.64.0/30" ]
    = get_all_ips_from_cidr "185.56.64.0/30"
  ∧ ∃ ips,
      get_all_ips_from_cidr_array [ "185.56.64.0/31"; "185.56.64.0/30" ] = Ok ips
      ∧ get_all_ips_from_cidr_array [ "185.56.64.0/30"; "185.56.64.0/31" ] = Ok ips
      ∧ ∀ s, s ∈ ips ↔
             ∃ B', B' ∈ [ "185.56.64.0/31"; "185.56.64.0/30" ] ∧ s ∈ expansion B'.
Proof.
  apply get_all_ips_from_cidr_array_laws.
  - vm_compute. reflexivity.
  - repeat constructor.
  - apply perm_swap.
Defined.

(** C10. [get_all_ips_from_cidr] parses strictly: ["185.56.64.1/24"] splits
    into an address and a prefix length that both parse, the address has a
    bit set below the prefix, and the call raises [ValueError] where the
    enclosing network ["185.56.64.0/24"] expands to 256 addresses. *)
Theorem get_all_ips_from_cidr_strict :
  _split_addr_prefix "185.56.64.1/24" = Ok ("185.56.64.1", MaskStr "24")
  ∧ IPv4Address "185.56.64.1" = Ok 3107471361
  ∧ _make_netmask (MaskStr "24") = Ok (4294967040, 24)
  ∧ Z.land 3107471361 4294967040 = 3107471360
  ∧ IPv4Network "185.56.64.1/24" = Raise ValueError
  ∧ get_all_ips_from_cidr "185.56.64.1/24" = Raise ValueError
  ∧ size (expansion "185.56.64.0/24") = 256%nat.
Proof.
  repeat split; try (vm_compute; reflexivity).
Qed.

(** *** Membership Resolver *)

(** C8, with the documents on which it fails.  For an address that parses:
    on a document each of whose blocks parses or fails with
    [AddressValueError], the result is the empty list when no block holds the
    address, it is the one category when one block of one category entry
    holds the address and no other block does, and it lists the categories in
    document order, one entry per block that holds the address.  On every
    other document the call raises the error of a block that [IPv4Network]
    refuses with another exception, also when no block holds the address:
    the handler of the scan names [AddressValueError] only. *)
Theorem reverse_search_results (ip : string) (n : Z) (doc : azure_info) :
  IPv4Address ip = Ok n →
  (doc_scannable doc →
     (Forall (λ cat, hits ip cat = 0%nat) (values doc) →
      reverse_search_ip_in_azure ip doc = Ok [])
     ∧ (∀ pre cat post,
          values doc = pre ++ cat :: post →
          hits ip cat = 1%nat →
          Forall (λ cat', hits ip cat' = 0%nat) (pre ++ post) →
          reverse_search_ip_in_azure ip doc = Ok [ cat ])
     ∧ reverse_search_ip_in_azure ip doc
       = Ok (flat_map (λ cat, replicate (hits ip cat) cat) (values doc)))
  ∧ (¬ doc_scannable doc →
     ∃ cat b e,
       cat ∈ values doc ∧ b ∈ blocks cat
       ∧ IPv4Network b = Raise e ∧ e ≠ AddressValueError
       ∧ reverse_search_ip_in_azure ip doc = Raise e).
Proof.
  intros _. split.
  - intros Hscan.
    pose proof (reverse_search_ip_in_azure_scannable ip doc Hscan) as Hres.
    split; [|split; [|done]].
    + intros Hnone. by rewrite Hres, flat_map_no_hits.
    + intros pre cat post Hdoc Hone Hrest. rewrite Hres, Hdoc.
      apply Forall_app in Hrest as [Hpre Hpost].
      rewrite flat_map_app. cbn [flat_map].
      by rewrite !flat_map_no_hits, Hone by done.
  - intros (cat & b & e & Hcat & Hb & Hnet & He & Hraise)%reverse_search_unscannable.
    exists cat, b, e. auto.
Qed.

Lemma reverse_search_results_witness :
  reverse_search_ip_in_azure "8.8.8.8" doc_three = Ok []
  ∧ reverse_search_ip_in_azure "10.1.2.3" doc_three = Ok [ cat_one_block ]
  ∧ reverse_search_ip_in_azure "192.168.7.7" doc_three
    = Ok [ cat_elsewhere; cat_elsewhere ]
  ∧ Forall (λ cat, hits "8.8.8.8" cat = 0%nat) (values doc_bad_netmask)
  ∧ reverse_search_ip_in_azure "8.8.8.8" doc_bad_netmask = Raise NetmaskValueError.
Proof.
  assert (Hscan : doc_scannable doc_three) by (repeat constructor).
  assert (Hbad : ¬ doc_scannable doc_bad_netmask).
  { intros H. apply Forall_cons in H as [H _]. apply Forall_cons in H as [H _].
    vm_compute in H. discriminate H. }
  split; [|split; [|split; [|split]]].
  - destruct (reverse_search_results "8.8.8.8" 134744072 doc_three)
      as [Hs _]; [vm_compute; reflexivity|].
    destruct (Hs Hscan) as (Hnone & _ & _). apply Hnone. repeat constructor.
  - destruct (reverse_search_results "10.1.2.3" 167838211 doc_three)
      as [Hs _]; [vm_compute; reflexivity|].
    destruct (Hs Hscan) as (_ & Hone & _).
    apply (Hone [ cat_elsewhere ] cat_one_block [ cat_elsewhere ]).
    + reflexivity.
    + vm_compute. reflexivity.
    + repeat constructor.
  - destruct (reverse_search_results "192.168.7.7" 3232237319 doc_three)
      as [Hs _]; [vm_compute; reflexivity|].
    destruct (Hs Hscan) as (_ & _ & Hall). exact Hall.
  - repeat constructor.
  - destruct (reverse_search_results "8.8.8.8" 134744072 doc_bad_netmask)
      as [_ Hs]; [vm_compute; reflexivity|].
    destruct (Hs Hbad) as (cat & b & e & Hcat & Hb & Hnet & _ & ->).
    apply list_elem_of_singleton in Hcat as ->.
    apply list_elem_of_singleton in Hb as ->.
    vm_compute in Hnet. by injection Hnet as <-.
Defined.

(** C1, the counterexample.  ["10.1.2.3"] lies in both blocks of the one
    category of [doc_two_blocks], and the result holds that category
    twice. *)
Lemma reverse_search_repeats_category :
  IPv4Address "10.1.2.3" = Ok 167838211
  ∧ ∃ res,
      reverse_search_ip_in_azure "10.1.2.3" doc_two_blocks = Ok res
      ∧ count_occ category_eq_dec res cat_two_blocks = 2%nat.
Proof.
  split; [vm_compute; reflexivity|].
  exists [ cat_two_blocks; cat_two_blocks ].
  split; vm_compute; reflexivity.
Qed.

(** C1, as the code has it.  For an address that parses and a document whose
    blocks the scan can read, the result holds a category once for each of
    its blocks that holds the address: as many times as the category has
    such blocks, for each entry of it in the document. *)
Theorem reverse_search_once_per_block (ip : string) (n : Z) (doc : azure_info) :
  IPv4Address ip = Ok n → doc_scannable doc →
  ∃ res,
    reverse_search_ip_in_azure ip doc = Ok res
    ∧ ∀ cat, count_occ category_eq_dec res cat
             = (hits ip cat * count_occ category_eq_dec (values doc) cat)%nat.
Proof.
  intros _ Hscan. eexists.
  split; [by apply reverse_search_ip_in_azure_scannable|].
  intros cat. apply count_occ_flat_map.
Qed.

Lemma reverse_search_once_per_block_witness :
  ∃ res,
    reverse_search_ip_in_azure "10.1.2.3" doc_three = Ok res
    ∧ ∀ cat, count_occ category_eq_dec res cat
             = (hits "10.1.2.3" cat
                * count_occ category_eq_dec (values doc_three) cat)%nat.
Proof.
  apply (reverse_search_once_per_block "10.1.2.3" 167838211 doc_three).
  - vm_compute. reflexivity.
  - repeat constructor.
Defined.

(** C4, the counterexample.  ["not-an-ip"] is no IPv4 address, and the search
    returns the empty list for it. *)
Lemma reverse_search_accepts_bad_address :
  IPv4Address "not-an-ip" = Raise AddressValueError
  ∧ reverse_search_ip_in_azure "not-an-ip" doc_two_blocks = Ok [].
Proof. split; vm_compute; reflexivity. Qed.

(** C4, as the code has it.  For a string that is no IPv4 address the search
    never fails with an address error and never returns an entry: the
    failure to parse it is caught block by block, and for a document whose
    blocks the scan can read the result is the empty list. *)
Theorem reverse_search_invalid_address (ip : string) (e : exn) (doc : azure_info) :
  IPv4Address ip = Raise e →
  reverse_search_ip_in_azure ip doc ≠ Raise AddressValueError
  ∧ (∀ res, reverse_search_ip_in_azure ip doc = Ok res → res = [])
  ∧ (doc_scannable doc → reverse_search_ip_in_azure ip doc = Ok []).
Proof.
  intros Hip.
  pose proof (search_categories_invalid ip e Hip [] (values doc)) as Hout.
  fold (reverse_search_ip_in_azure ip doc) in Hout.
  destruct Hout as [Hout|(e' & He' & Hout)]; rewrite Hout.
  - repeat split; [done|by intros res [= <-]].
  - repeat split.
    + by intros [= ->].
    + done.
    + intros Hscan.
      rewrite (reverse_search_ip_in_azure_scannable ip doc Hscan) in Hout. done.
Qed.

Lemma reverse_search_invalid_address_witness :
  reverse_search_ip_in_azure "not-an-ip" doc_three ≠ Raise AddressValueError
  ∧ (∀ res, reverse_search_ip_in_azure "not-an-ip" doc_three = Ok res → res = [])
  ∧ (doc_scannable doc_three →
     reverse_search_ip_in_azure "not-an-ip" doc_three = Ok []).
Proof.
  apply (reverse_search_invalid_address "not-an-ip" AddressValueError doc_three).
  vm_compute. reflexivity.
Defined.

(** C5, at the failing inputs.  ["10.0.0.1"] parses; a block with the prefix
    length 33 makes the search raise [NetmaskValueError], and a block with
    host bits set makes it raise [ValueError]: neither is caught. *)
Theorem reverse_search_lets_block_errors_through :
  IPv4Address "10.0.0.1" = Ok 167772161
  ∧ IPv4Network "10.0.0.0/33" = Raise NetmaskValueError
  ∧ reverse_search_ip_in_azure "10.0.0.1" doc_bad_netmask = Raise NetmaskValueError
  ∧ IPv4Network "10.0.0.1/8" = Raise ValueError
  ∧ reverse_search_ip_in_azure "10.0.0.1" doc_host_bits = Raise ValueError.
Proof. repeat split; vm_compute; reflexivity. Qed.

(** *** Document Locator *)




(** C2, at the failing inputs.  When the page is fetched with a good status
    and no substring of its body matches the pattern, the call returns the
    empty list: [ScrapeError] is not raised. *)
Theorem get_azure_ip_ranges_download_no_match
    (requests_get : string → result response) (page : string) (r : response) :
  requests_get page = Ok r → raise_for_status r = Ok () →
  (∀ m, substring m (content r) → ¬ matches MICROSOFT_DOWNLOAD_REGEX m) →
  get_azure_ip_ranges_download requests_get page = Ok [].
Proof.
  intros Hget Hstatus Hnone.
  rewrite (get_azure_ip_ranges_download_Ok _ _ _ Hget Hstatus).
  by rewrite findall_none, list_to_set_nil, elements_empty.
Qed.

Lemma get_azure_ip_ranges_download_no_match_witness :
  get_azure_ip_ranges_download (serve plain_page) AZURE_GET_PUBLIC_CLOUD_URL = Ok [].
Proof.
  apply (get_azure_ip_ranges_download_no_match (serve plain_page)
           AZURE_GET_PUBLIC_CLOUD_URL (Response 200 plain_page)).
  - reflexivity.
  - reflexivity.
  - apply nothing_in_plain_page.
Defined.

(** *** Range Document Parser *)

(** C3, at the failing input.  When the file is fetched with a good status
    the call returns [None], whatever the file holds: no block is
    extracted and nothing is recorded as skipped. *)
Theorem parse_azure_ip_ranges_returns_None
    (requests_get : string → result response) (url : string) (r : response) :
  requests_get url = Ok r → raise_for_status r = Ok () →
  parse_azure_ip_ranges requests_get url = Ok None.
Proof.
  intros Hget Hstatus. unfold parse_azure_ip_ranges.
  rewrite Hget. cbn [mbind result_bind]. unfold mbind, result_bind.
  by rewrite Hstatus.
Qed.

Lemma parse_azure_ip_ranges_returns_None_witness :
  parse_azure_ip_ranges (serve ranges_file) "https://example.invalid/ranges.json"
  = Ok None.
Proof.
  apply (parse_azure_ip_ranges_returns_None (serve ranges_file) _
           (Response 200 ranges_file)); reflexivity.
Defined.

(** ** Further properties of the code *)

(** *** Fetching a page *)

Section fetch.

Variable requests_get : string → result response.

Lemma raise_for_status_Ok r :
  raise_for_status r = Ok () ↔ ¬ 400 ≤ status_code r < 600.
Proof.
  unfold raise_for_status.
  destruct (400 <=? status_code r) eqn:H1, (status_code r <? 600) eqn:H2; simpl;
    rewrite ?Z.leb_le, ?Z.leb_gt, ?Z.ltb_lt, ?Z.ltb_ge in *; split; try done; lia.
Qed.

Lemma raise_for_status_Raise r e :
  raise_for_status r = Raise e ↔ e = HTTPError ∧ 400 ≤ status_code r < 600.
Proof.
  unfold raise_for_status.
  destruct (400 <=? status_code r) eqn:H1, (status_code r <? 600) eqn:H2; simpl;
    rewrite ?Z.leb_le, ?Z.leb_gt, ?Z.ltb_lt, ?Z.ltb_ge in *; split;
    try (intros [= <-]); try (intros [-> ?]); try done; try lia.
Qed.

Lemma fetch_outcome {A} (k : response → result A) url e :
  (∀ r, k r ≠ Raise e) →
  (r ← requests_get url; _ ← raise_for_status r; k r) = Raise e
  ↔ fetch_fails requests_get url e.
Proof.
  intros Hk. unfold fetch_fails.
  destruct (requests_get url) as [r|e'] eqn:Hget; cbn [mbind result_bind].
  - unfold mbind, result_bind.
    destruct (raise_for_status r) as [[]|e''] eqn:Hst.
    + apply raise_for_status_Ok in Hst. split.
      * intros Hr. by destruct (Hk r).
      * intros [[=]|(-> & r' & [= <-] & Hr')]. lia.
    + apply raise_for_status_Raise in Hst as [-> Hst]. split.
      * intros [= <-]. right. eauto.
      * intros [[=]|(-> & _)]. done.
  - unfold mbind, result_bind. split.
    + intros [= ->]. by left.
    + intros [[= ->]|(-> & r' & [=] & _)]. done.
Qed.

End fetch.

(** X1. [get_azure_ip_ranges_download] fails exactly when the fetch does: with
    the exception [requests.get] raised, unchanged, or with [HTTPError] when
    the status is from 400 to 599.  The handler re-raises what it catches, and
    nothing after the status check can fail; in particular the call never
    fails with [ScrapeError]. *)
Theorem get_azure_ip_ranges_download_fails
    (requests_get : string → result response) (page : string) (e : exn) :
  get_azure_ip_ranges_download requests_get page = Raise e
  ↔ fetch_fails requests_get page e.
Proof.
  unfold get_azure_ip_ranges_download. rewrite !try_except_reraise.
  apply fetch_outcome. intros r. unfold re.findall. done.
Qed.

Lemma get_azure_ip_ranges_download_fails_witness :
  get_azure_ip_ranges_download (refuse RequestException) AZURE_GET_PUBLIC_CLOUD_URL
  = Raise RequestException
  ∧ get_azure_ip_ranges_download (answer 404 link_page) AZURE_GET_PUBLIC_CLOUD_URL
    = Raise HTTPError.
Proof.
  split; apply get_azure_ip_ranges_download_fails.
  - by left.
  - right. split; [done|]. exists (Response 404 link_page). by repeat split.
Defined.

(** X2. [parse_azure_ip_ranges] fails exactly when its fetch does (the
    transport's exception, or [HTTPError] on a status from 400 to 599), and
    whenever it returns, it returns [None]. *)
Theorem parse_azure_ip_ranges_outcome
    (requests_get : string → result response) (url : string) :
  (∀ e, parse_azure_ip_ranges requests_get url = Raise e
        ↔ fetch_fails requests_get url e)
  ∧ (∀ v, parse_azure_ip_ranges requests_get url = Ok v → v = None).
Proof.
  split.
  - intros e. unfold parse_azure_ip_ranges. by apply fetch_outcome.
  - intros v. unfold parse_azure_ip_ranges.
    rewrite bind_Ok. intros (r & _ & H).
    rewrite bind_Ok in H. by destruct H as (_ & _ & [= <-]).
Qed.

Lemma parse_azure_ip_ranges_outcome_witness :
  parse_azure_ip_ranges (answer 503 ranges_file) "https://example.invalid/r.json"
  = Raise HTTPError.
Proof.
  apply (proj1 (parse_azure_ip_ranges_outcome (answer 503 ranges_file) _)).
  right. split; [done|]. exists (Response 503 ranges_file). by repeat split.
Defined.

(** X3. Every candidate that [get_azure_ip_ranges_download] returns has the
    shape of a download link: the literal prefix, with any character but a
    newline at the two unescaped dots, then a run free of double quotes, then
    [.json]; and it is the printed form, inside [str(response.content)], of a
    substring of the body that matches the pattern. *)
Theorem get_azure_ip_ranges_download_links
    (requests_get : string → result response) (page : string) (r : response)
    (files : list string) (u : string) :
  requests_get page = Ok r →
  get_azure_ip_ranges_download requests_get page = Ok files →
  u ∈ files →
  (∃ x y mid, u = download_link x y mid
              ∧ x ≠ "010"%char ∧ y ≠ "010"%char
              ∧ PyStr.contains dquote mid = false)
  ∧ ∃ m, substring m (content r)
         ∧ matches MICROSOFT_DOWNLOAD_REGEX m
         ∧ u = repr_body (quote_of (content r)) m.
Proof.
  intros Hget Hfiles Hu.
  assert (Hst : raise_for_status r = Ok ()).
  { unfold get_azure_ip_ranges_download in Hfiles.
    rewrite !try_except_reraise, Hget in Hfiles. cbn [mbind result_bind] in Hfiles.
    unfold mbind, result_bind in Hfiles.
    by destruct (raise_for_status r) as [[]|]. }
  rewrite (get_azure_ip_ranges_download_Ok _ _ _ Hget Hst) in Hfiles.
  assert (Hf : files
               = elements (list_to_set
                   (re.findall_from MICROSOFT_DOWNLOAD_REGEX 0 (repr (content r)))
                 : gset string)) by congruence.
  rewrite Hf, elem_of_elements, elem_of_list_to_set in Hu. clear Hf Hfiles.
  split.
  - apply matches_download. by apply findall_from_sound in Hu as [Hm _].
  - by apply findall_repr_back.
Qed.

Lemma get_azure_ip_ranges_download_links_witness :
  (∃ x y mid, foo_bar_url = download_link x y mid
              ∧ x ≠ "010"%char ∧ y ≠ "010"%char
              ∧ PyStr.contains dquote mid = false)
  ∧ ∃ m, substring m link_page
         ∧ matches MICROSOFT_DOWNLOAD_REGEX m
         ∧ foo_bar_url = repr_body (quote_of link_page) m.
Proof.
  apply (get_azure_ip_ranges_download_links (serve link_page)
           AZURE_GET_PUBLIC_CLOUD_URL (Response 200 link_page)
           [ foo_bar_url ] foo_bar_url).
  - reflexivity.
  - vm_compute. reflexivity.
  - left.
Defined.

(** *** Expanding a list of blocks *)

Section array_errors.

Lemma array_loop_Raise (pre post : list string) (B : string) (e : exn)
    (s : gset string) :
  Forall valid_block pre → IPv4Network B = Raise e →
  for_in (pre ++ B :: post)
    (λ ips ip_range, s' ← get_all_ips_from_cidr ip_range; Ok (ips ∪ s')) s
  = Raise e.
Proof.
  intros Hpre HB. revert s. induction Hpre as [|B' pre HB' _ IH]; intros s.
  - cbn [app for_in]. by rewrite (get_all_ips_from_cidr_Raise _ _ HB).
  - cbn [app for_in]. unfold valid_block in HB'.
    destruct (IPv4Network B') as [net|] eqn:Hnet; [|done].
    rewrite (get_all_ips_from_cidr_Ok _ _ Hnet).
    cbn [mbind result_bind]. unfold mbind at 1, result_bind at 1. apply IH.
Qed.

(** A list of blocks splits at its first invalid block, if it has one. *)
Lemma first_invalid_block (l : list string) :
  Forall valid_block l
  ∨ ∃ pre B post e, l = pre ++ B :: post ∧ Forall valid_block pre
                    ∧ IPv4Network B = Raise e.
Proof.
  induction l as [|B l IH]; [by left|].
  destruct (IPv4Network B) as [net|e] eqn:Hnet.
  - assert (HB : valid_block B) by (unfold valid_block; by rewrite Hnet).
    destruct IH as [IH|(pre & B' & post & e & -> & Hpre & HB')].
    + left. by constructor.
    + right. exists (B :: pre), B', post, e. by repeat constructor.
  - right. exists [], B, l, e. by repeat constructor.
Qed.

Lemma get_all_ips_from_cidr_array_Ok_inv l ips :
  get_all_ips_from_cidr_array l = Ok ips →
  Forall valid_block l ∧ ips = ⋃ (expansion <$> l).
Proof.
  intros Hl.
  destruct (first_invalid_block l) as [Hv|(pre & B & post & e & -> & Hpre & HB)].
  - rewrite get_all_ips_from_cidr_array_Ok in Hl by done. by injection Hl as <-.
  - unfold get_all_ips_from_cidr_array in Hl.
    by rewrite (array_loop_Raise _ _ _ e) in Hl.
Qed.

End array_errors.

(** X4. [get_all_ips_from_cidr_array] fails with the error of the first block
    that [IPv4Network] refuses: the blocks after it are never looked at, and
    the addresses of the blocks before it are lost. *)
Theorem get_all_ips_from_cidr_array_first_error
    (pre post : list string) (B : string) (e : exn) :
  Forall valid_block pre → IPv4Network B = Raise e →
  get_all_ips_from_cidr_array (pre ++ B :: post) = Raise e.
Proof. apply array_loop_Raise. Qed.

Lemma get_all_ips_from_cidr_array_first_error_witness :
  get_all_ips_from_cidr_array
    ([ "185.56.64.0/24" ] ++ "185.56.64.0/33" :: [ "not-a-cidr" ])
  = Raise NetmaskValueError.
Proof.
  apply get_all_ips_from_cidr_array_first_error.
  - repeat constructor.
  - vm_compute. reflexivity.
Defined.

(** X5. [get_all_ips_from_cidr_array] returns a set exactly when every block
    of the list is one that [IPv4Network] accepts, and the set is then the
    union of the expansions of the blocks. *)
Theorem get_all_ips_from_cidr_array_succeeds_iff (l : list string) :
  (is_ok (get_all_ips_from_cidr_array l) = true ↔ Forall valid_block l)
  ∧ ∀ ips, get_all_ips_from_cidr_array l = Ok ips → ips = ⋃ (expansion <$> l).
Proof.
  split.
  - split.
    + destruct (get_all_ips_from_cidr_array l) as [ips|] eqn:Hl; [|done].
      intros _. by apply get_all_ips_from_cidr_array_Ok_inv in Hl as [? _].
    + intros Hl. by rewrite get_all_ips_from_cidr_array_Ok.
  - intros ips Hl. by apply get_all_ips_from_cidr_array_Ok_inv in Hl as [_ ?].
Qed.

(** X6. Expanding a concatenation of two lists gives the union of the two
    expansions. *)
Theorem get_all_ips_from_cidr_array_app (l1 l2 : list string) (s1 s2 : gset string) :
  get_all_ips_from_cidr_array l1 = Ok s1 →
  get_all_ips_from_cidr_array l2 = Ok s2 →
  get_all_ips_from_cidr_array (l1 ++ l2) = Ok (s1 ∪ s2).
Proof.
  intros [H1 ->]%get_all_ips_from_cidr_array_Ok_inv
         [H2 ->]%get_all_ips_from_cidr_array_Ok_inv.
  rewrite get_all_ips_from_cidr_array_Ok by by apply Forall_app.
  by rewrite fmap_app, union_list_app_L.
Qed.

Lemma get_all_ips_from_cidr_array_app_witness :
  get_all_ips_from_cidr_array ([ "10.0.0.0/31" ] ++ [ "10.0.0.2/31" ])
  = Ok (expansion "10.0.0.0/31" ∪ expansion "10.0.0.2/31").
Proof.
  apply get_all_ips_from_cidr_array_app; vm_compute; reflexivity.
Defined.

(** *** Errors of the search *)

(** X7. [reverse_search_ip_in_azure] catches [AddressValueError] only: at the
    first block, in document order, that [IPv4Network] refuses with another
    exception (all blocks before it parsing or failing with
    [AddressValueError]), the search fails with that exception, whatever the
    address searched for and whatever comes after the block. *)
Theorem reverse_search_first_error
    (ip : string) (cpre cpost : list category) (cat : category)
    (bpre bpost : list string) (b : string) (e : exn) :
  Forall cat_scannable cpre →
  blocks cat = bpre ++ b :: bpost →
  Forall (λ b, block_scannable b = true) bpre →
  IPv4Network b = Raise e → e ≠ AddressValueError →
  reverse_search_ip_in_azure ip (AzureInfo (cpre ++ cat :: cpost)) = Raise e.
Proof.
  intros. unfold reverse_search_ip_in_azure. cbn [values].
  by eapply search_categories_Raise.
Qed.

Lemma reverse_search_first_error_witness :
  reverse_search_ip_in_azure "10.1.2.3"
    (AzureInfo ([ cat_one_block ]
                ++ Category "Storage"
                     (Properties [ "2603:1000::/40"; "10.1.2.3/24"; "10.0.0.0/33" ])
                :: [ cat_elsewhere ]))
  = Raise ValueError.
Proof.
  apply (reverse_search_first_error "10.1.2.3" _ _ _ [ "2603:1000::/40" ]
           [ "10.0.0.0/33" ] "10.1.2.3/24").
  - repeat constructor.
  - reflexivity.
  - repeat constructor.
  - vm_compute. reflexivity.
  - discriminate.
Defined.

(** *** Blocks that are not IPv4 *)

Section not_ipv4.

Lemma split_nonempty sep s : PyStr.split sep s ≠ [].
Proof.
  destruct s as [|c s]; simpl; [done|].
  destruct (Ascii.eqb c sep); [done|]. by destruct (PyStr.split sep s).
Qed.

(** A character other than the separator stays in one of the pieces. *)
Lemma split_keeps sep c s :
  PyStr.contains c s = true → c ≠ sep →
  Exists (λ o, PyStr.contains c o = true) (PyStr.split sep s).
Proof.
  intros Hc Hne. induction s as [|d s IH]; [done|].
  simpl in Hc. simpl.
  destruct (Ascii.eqb_spec d sep) as [->|Hd].
  - apply Exists_cons_tl, IH.
    apply orb_true_iff in Hc as [Hc|Hc]; [|done].
    by apply Ascii.eqb_eq in Hc.
  - destruct (PyStr.split sep s) as [|h t] eqn:Hs.
    { by destruct (split_nonempty sep s). }
    apply orb_true_iff in Hc as [Hc|Hc].
    + apply Exists_cons_hd. simpl. by rewrite Hc.
    + apply IH in Hc. apply Exists_cons in Hc as [Hc|Hc].
      * apply Exists_cons_hd. simpl. by rewrite Hc, orb_true_r.
      * by apply Exists_cons_tl.
Qed.

Lemma all_digits_contains c o :
  PyStr.contains c o = true → PyStr.is_digit c = false →
  PyStr.all_digits o = false.
Proof.
  intros Hc Hd. induction o as [|d o IH]; [done|].
  simpl in *. apply orb_true_iff in Hc as [Hc|Hc].
  - apply Ascii.eqb_eq in Hc as ->. by rewrite Hd.
  - rewrite (IH Hc). apply andb_false_r.
Qed.

Lemma _parse_octet_nondigit c o :
  PyStr.contains c o = true → PyStr.is_digit c = false →
  _parse_octet o = Raise ValueError.
Proof.
  intros Hc Hd. unfold _parse_octet.
  destruct (String.eqb o ""); [done|].
  unfold PyStr.isascii_isdigit.
  rewrite (all_digits_contains _ _ Hc Hd). by destruct o.
Qed.

Lemma from_bytes_map_nondigit c l acc :
  Exists (λ o, PyStr.contains c o = true) l → PyStr.is_digit c = false →
  from_bytes_map _parse_octet acc l = Raise ValueError.
Proof.
  intros Hl Hd. revert acc. induction Hl as [o l Ho|o l _ IH]; intros acc.
  - cbn [from_bytes_map]. by rewrite (_parse_octet_nondigit _ _ Ho Hd).
  - cbn [from_bytes_map]. destruct (_parse_octet o) as [b|e] eqn:Hb.
    + apply bind_Raise. right. eauto.
    + by apply _parse_octet_raises in Hb as ->.
Qed.

(** An address text with a character that is neither a digit nor a dot is
    refused as an address. *)
Lemma IPv4Address_nondigit c addr :
  PyStr.contains c addr = true → PyStr.is_digit c = false → c ≠ "."%char →
  IPv4Address addr = Raise AddressValueError.
Proof.
  intros Hc Hd Hdot. unfold IPv4Address.
  destruct (PyStr.contains "/" addr); [done|].
  unfold _ip_int_from_string.
  destruct (String.eqb addr ""); [done|].
  destruct (negb _); [done|].
  rewrite (from_bytes_map_nondigit c); [done| |done].
  by apply split_keeps.
Qed.

Lemma IPv4Network_address_part c b :
  PyStr.contains c (address_part b) = true →
  PyStr.is_digit c = false → c ≠ "."%char →
  IPv4Network b = Raise AddressValueError.
Proof.
  intros Hc Hd Hdot. unfold IPv4Network, _split_addr_prefix, _split_optional_netmask.
  unfold address_part in Hc.
  destruct (PyStr.split "/" b) as [|addr [|mask [|x l]]] eqn:Hs; simpl in Hc |- *.
  - done.
  - cbn [mbind result_bind]. unfold mbind, result_bind.
    by rewrite (IPv4Address_nondigit c).
  - cbn [mbind result_bind]. unfold mbind, result_bind.
    by rewrite (IPv4Address_nondigit c).
  - done.
Qed.

End not_ipv4.

(** X8. A block whose address part holds a character that is neither a digit
    nor a dot, as the colon of an IPv6 prefix, is refused by [IPv4Network]
    with [AddressValueError]: the search skips it for every address and leaves
    its result as it was, while [get_all_ips_from_cidr] fails on it. *)
Theorem search_block_skips_non_ipv4
    (ip : string) (cat : category) (search : list category) (b : string)
    (c : ascii) :
  PyStr.contains c (address_part b) = true →
  PyStr.is_digit c = false → c ≠ "."%char →
  IPv4Network b = Raise AddressValueError
  ∧ get_all_ips_from_cidr b = Raise AddressValueError
  ∧ search_block ip cat search b = Ok search
  ∧ block_scannable b = true ∧ block_matches ip b = false.
Proof.
  intros Hc Hd Hdot.
  assert (Hb : IPv4Network b = Raise AddressValueError).
  { by apply (IPv4Network_address_part c). }
  split; [done|]. split; [by apply get_all_ips_from_cidr_Raise|].
  unfold search_block, block_scannable, block_matches. by rewrite Hb.
Qed.

Lemma search_block_skips_non_ipv4_witness :
  IPv4Network "2603:1000::/40" = Raise AddressValueError
  ∧ get_all_ips_from_cidr "2603:1000::/40" = Raise AddressValueError
  ∧ search_block "10.1.2.3" cat_one_block [ cat_elsewhere ] "2603:1000::/40"
    = Ok [ cat_elsewhere ]
  ∧ block_scannable "2603:1000::/40" = true
  ∧ block_matches "10.1.2.3" "2603:1000::/40" = false.
Proof.
  apply (search_block_skips_non_ipv4 _ _ _ _ ":"%char).
  - reflexivity.
  - reflexivity.
  - discriminate.
Defined.

(** *** What the search finds *)

Section found.

Lemma elem_of_flat_map_replicate (h : category → nat) (l : list category) cat :
  cat ∈ flat_map (λ c, replicate (h c) c) l ↔ cat ∈ l ∧ (0 < h cat)%nat.
Proof.
  induction l as [|c l IH]; simpl.
  - rewrite elem_of_nil. tauto.
  - rewrite elem_of_app, IH, elem_of_cons, elem_of_replicate. split.
    + intros [[-> Hh]|[Hl Hh]]; split; auto; lia.
    + intros [[->|Hl] Hh]; [left; split; [done|lia]|right; done].
Qed.

Lemma hits_pos ip cat :
  (0 < hits ip cat)%nat ↔ ∃ b, b ∈ blocks cat ∧ block_matches ip b = true.
Proof.
  unfold hits. split.
  - intros Hlen.
    destruct (filter _ (blocks cat)) as [|b l] eqn:Hf; [simpl in Hlen; lia|].
    exists b.
    assert (Hin : b ∈ filter (λ b, block_matches ip b = true) (blocks cat)).
    { rewrite Hf. left. }
    apply list_elem_of_filter in Hin as [? ?]. done.
  - intros (b & Hb & Hm).
    assert (Hin : b ∈ filter (λ b, block_matches ip b = true) (blocks cat)).
    { by apply list_elem_of_filter. }
    destruct (filter _ (blocks cat)); [by apply elem_of_nil in Hin|simpl; lia].
Qed.

End found.

(** X9. When the address parses to the integer [n] and the search returns,
    a category is in the result exactly when it is in the document and one of
    its blocks is an IPv4 network whose span, from the network address over
    [2^(32-p)] integers, holds [n]. *)
Theorem reverse_search_finds
    (ip : string) (n : Z) (doc : azure_info) (res : list category)
    (cat : category) :
  IPv4Address ip = Ok n →
  reverse_search_ip_in_azure ip doc = Ok res →
  cat ∈ res ↔
  cat ∈ values doc
  ∧ ∃ b net, b ∈ blocks cat ∧ IPv4Network b = Ok net ∧ in_span net n.
Proof.
  intros Hip Hres.
  assert (Hscan : doc_scannable doc).
  { apply (reverse_search_returns_iff_scannable ip). by rewrite Hres. }
  rewrite (reverse_search_ip_in_azure_scannable ip doc Hscan) in Hres.
  assert (Hr : res = flat_map (λ cat, replicate (hits ip cat) cat) (values doc))
    by congruence.
  rewrite Hr, elem_of_flat_map_replicate, hits_pos. clear Hr Hres.
  split; intros [Hcat Hb]; (split; [done|]).
  - destruct Hb as (b & Hb & Hm). exists b.
    destruct (IPv4Network b) as [net|] eqn:Hnet.
    + exists net. split; [done|]. split; [done|].
      by apply (block_matches_span ip b net n).
    + unfold block_matches in Hm. by rewrite Hnet in Hm.
  - destruct Hb as (b & net & Hb & Hnet & Hspan). exists b. split; [done|].
    by apply (block_matches_span ip b net n).
Qed.

Lemma reverse_search_finds_witness :
  cat_one_block ∈ [ cat_one_block ] ↔
  cat_one_block ∈ values doc_three
  ∧ ∃ b net, b ∈ blocks cat_one_block ∧ IPv4Network b = Ok net
             ∧ in_span net 167838211.
Proof.
  apply (reverse_search_finds "10.1.2.3" 167838211 doc_three).
  - vm_compute. reflexivity.
  - vm_compute. reflexivity.
Defined.

(** *** Spans of networks *)

Section spans.

Lemma expansion_Ok B net :
  IPv4Network B = Ok net → get_all_ips_from_cidr B = Ok (expansion B).
Proof.
  intros Hnet. unfold expansion. by rewrite (get_all_ips_from_cidr_Ok _ _ Hnet).
Qed.

Lemma elem_of_expansion B net s :
  IPv4Network B = Ok net →
  s ∈ expansion B ↔
  ∃ n, s = _string_from_ip_int n ∧ IPv4Address s = Ok n ∧ in_span net n.
Proof.
  intros Hnet.
  destruct (get_all_ips_from_cidr_members _ _ Hnet) as (ips & Hips & _ & Hmem).
  unfold expansion. rewrite Hips. apply Hmem.
Qed.

(** Two aligned spans, the first no longer than the second, are nested or
    apart. *)
Lemma aligned_spans a1 a2 k1 k2 :
  0 ≤ k1 ≤ k2 → 0 ≤ a1 → 0 ≤ a2 →
  a1 `mod` 2 ^ k1 = 0 → a2 `mod` 2 ^ k2 = 0 →
  (a2 ≤ a1 ∧ a1 + 2 ^ k1 ≤ a2 + 2 ^ k2)
  ∨ a1 + 2 ^ k1 ≤ a2 ∨ a2 + 2 ^ k2 ≤ a1.
Proof.
  intros Hk Ha1 Ha2 Hm1 Hm2.
  assert (Hpow : 2 ^ k2 = 2 ^ k1 * 2 ^ (k2 - k1)).
  { rewrite <- Z.pow_add_r by lia. f_equal. lia. }
  assert (Hm : 0 < 2 ^ k1) by (apply Z.pow_pos_nonneg; lia).
  assert (Hd : 0 < 2 ^ (k2 - k1)) by (apply Z.pow_pos_nonneg; lia).
  set (m := 2 ^ k1) in *. set (d := 2 ^ (k2 - k1)) in *. rewrite Hpow in *.
  pose proof (Z.div_mod a1 m ltac:(lia)) as H1. rewrite Hm1 in H1.
  pose proof (Z.div_mod a2 (m * d) ltac:(nia)) as H2. rewrite Hm2 in H2.
  set (x := a1 `div` m) in *. set (y := a2 `div` (m * d)) in *.
  pose proof (Z.div_mod x d ltac:(lia)) as Hx.
  pose proof (Z.mod_pos_bound x d Hd) as Hr.
  set (q := x `div` d) in *. set (r := x `mod` d) in *.
  destruct (Z.lt_trichotomy q y) as [Hlt|[Heq|Hgt]].
  - right. left. nia.
  - left. subst y. nia.
  - right. right. nia.
Qed.

Lemma spans_nested_or_apart net1 net2 :
  network_ok net1 → network_ok net2 → _prefixlen net2 ≤ _prefixlen net1 →
  (∀ n, in_span net1 n → in_span net2 n)
  ∨ (∀ n, in_span net1 n → ¬ in_span net2 n).
Proof.
  intros H1 H2 Hp. unfold in_span.
  pose proof (prefixlen_range _ H1). pose proof (prefixlen_range _ H2).
  pose proof (address_range _ H1). pose proof (address_range _ H2).
  destruct (aligned_spans (network_address net1) (network_address net2)
              (32 - _prefixlen net1) (32 - _prefixlen net2))
    as [Hin|[Hout|Hout]];
    try lia; try apply address_aligned; try done.
  - left. intros n. lia.
  - right. intros n. lia.
  - right. intros n. lia.
Qed.

End spans.

(** X10. The expansion of a block holds the text of its network address and
    of its broadcast address: no address is left out at either end, and the
    set is never empty. *)
Theorem get_all_ips_from_cidr_ends (B : string) (net : network) :
  IPv4Network B = Ok net →
  ∃ ips, get_all_ips_from_cidr B = Ok ips
         ∧ _string_from_ip_int (network_address net) ∈ ips
         ∧ _string_from_ip_int (broadcast_address net) ∈ ips
         ∧ ips ≠ ∅.
Proof.
  intros Hnet. pose proof (IPv4Network_Ok _ _ Hnet) as Hok.
  exists (expansion B). split; [by eapply expansion_Ok|].
  pose proof (prefixlen_range _ Hok). pose proof (address_range _ Hok).
  pose proof (broadcast_range _ Hok) as Hbr.
  pose proof (broadcast_eq _ Hok) as Hb.
  assert (0 < 2 ^ (32 - _prefixlen net)) by (apply Z.pow_pos_nonneg; lia).
  assert (Hna : _string_from_ip_int (network_address net) ∈ expansion B).
  { apply (elem_of_expansion _ net); [done|]. eexists. split; [done|].
    split; [apply IPv4Address_string_from_ip_int; lia|]. unfold in_span. lia. }
  split; [done|]. split.
  - apply (elem_of_expansion _ net); [done|]. eexists. split; [done|].
    split; [apply IPv4Address_string_from_ip_int; lia|]. unfold in_span. lia.
  - intros Hempty. rewrite Hempty in Hna. by apply not_elem_of_empty in Hna.
Qed.

Lemma get_all_ips_from_cidr_ends_witness :
  ∃ ips, get_all_ips_from_cidr "185.56.64.0/22" = Ok ips
         ∧ _string_from_ip_int 3107471360 ∈ ips
         ∧ _string_from_ip_int (broadcast_address (Network 3107471360 4294966272 22))
           ∈ ips
         ∧ ips ≠ ∅.
Proof.
  apply (get_all_ips_from_cidr_ends "185.56.64.0/22"
           (Network 3107471360 4294966272 22)).
  vm_compute. reflexivity.
Defined.

(** X11. The expansions of two valid blocks are nested or disjoint: they
    never overlap in part. *)
Theorem expansions_nested_or_disjoint (B1 B2 : string) :
  valid_block B1 → valid_block B2 →
  expansion B1 ⊆ expansion B2
  ∨ expansion B2 ⊆ expansion B1
  ∨ expansion B1 ## expansion B2.
Proof.
  unfold valid_block. intros H1 H2.
  destruct (IPv4Network B1) as [net1|] eqn:Hnet1; [|done].
  destruct (IPv4Network B2) as [net2|] eqn:Hnet2; [|done].
  pose proof (IPv4Network_Ok _ _ Hnet1) as Hok1.
  pose proof (IPv4Network_Ok _ _ Hnet2) as Hok2.
  assert (Hcase : ∀ Ba Bb neta netb,
            IPv4Network Ba = Ok neta → IPv4Network Bb = Ok netb →
            network_ok neta → network_ok netb →
            _prefixlen netb ≤ _prefixlen neta →
            expansion Ba ⊆ expansion Bb ∨ expansion Ba ## expansion Bb).
  { intros Ba Bb neta netb Ha Hb Hoka Hokb Hp.
    destruct (spans_nested_or_apart neta netb Hoka Hokb Hp) as [Hin|Hout].
    - left. apply elem_of_subseteq. intros s.
      rewrite (elem_of_expansion _ _ _ Ha), (elem_of_expansion _ _ _ Hb).
      intros (n & ? & ? & ?). exists n. auto.
    - right. apply elem_of_disjoint. intros s.
      rewrite (elem_of_expansion _ _ _ Ha), (elem_of_expansion _ _ _ Hb).
      intros (n & _ & Hn & Hspan) (n' & _ & Hn' & Hspan').
      assert (n' = n) as -> by congruence. by apply (Hout n). }
  destruct (Z.le_ge_cases (_prefixlen net2) (_prefixlen net1)) as [Hp|Hp].
  - destruct (Hcase B1 B2 net1 net2) as [?|?]; auto.
  - destruct (Hcase B2 B1 net2 net1) as [?|Hd]; auto.
Qed.

Lemma expansions_nested_or_disjoint_witness :
  expansion "185.56.65.0/24" ⊆ expansion "185.56.64.0/22"
  ∨ expansion "185.56.64.0/22" ⊆ expansion "185.56.65.0/24"
  ∨ expansion "185.56.65.0/24" ## expansion "185.56.64.0/22".
Proof.
  apply expansions_nested_or_disjoint; vm_compute; reflexivity.
Defined.

(** X12. A block whose network address lies in a block with a prefix no
    longer than its own adds nothing: expanding the two, in either order,
    gives the expansion of the larger block alone. *)
Theorem get_all_ips_from_cidr_array_absorbs
    (B1 B2 : string) (net1 net2 : network) :
  IPv4Network B1 = Ok net1 → IPv4Network B2 = Ok net2 →
  _prefixlen net2 ≤ _prefixlen net1 →
  in_span net2 (network_address net1) →
  expansion B1 ⊆ expansion B2
  ∧ get_all_ips_from_cidr_array [ B1; B2 ] = get_all_ips_from_cidr B2
  ∧ get_all_ips_from_cidr_array [ B2; B1 ] = get_all_ips_from_cidr B2.
Proof.
  intros Hnet1 Hnet2 Hp Hin.
  pose proof (IPv4Network_Ok _ _ Hnet1) as Hok1.
  pose proof (IPv4Network_Ok _ _ Hnet2) as Hok2.
  assert (Hsub : expansion B1 ⊆ expansion B2).
  { destruct (spans_nested_or_apart net1 net2 Hok1 Hok2 Hp) as [Hall|Hnone].
    - apply elem_of_subseteq. intros s.
      rewrite (elem_of_expansion _ _ _ Hnet1), (elem_of_expansion _ _ _ Hnet2).
      intros (n & ? & ? & ?). exists n. auto.
    - destruct (Hnone (network_address net1)); [|done].
      pose proof (prefixlen_range _ Hok1).
      assert (0 < 2 ^ (32 - _prefixlen net1)) by (apply Z.pow_pos_nonneg; lia).
      unfold in_span. lia. }
  assert (Hv : Forall (λ B, is_ok (IPv4Network B) = true) [ B1; B2 ]).
  { repeat constructor; [by rewrite Hnet1|by rewrite Hnet2]. }
  assert (Hv' : Forall (λ B, is_ok (IPv4Network B) = true) [ B2; B1 ]).
  { repeat constructor; [by rewrite Hnet2|by rewrite Hnet1]. }
  split; [done|].
  rewrite !get_all_ips_from_cidr_array_Ok, (expansion_Ok _ _ Hnet2) by done.
  cbn [fmap list_fmap union_list foldr]. rewrite !(right_id_L ∅ (∪)).
  split; f_equal.
  - by apply subseteq_union_1_L.
  - rewrite (comm_L (∪)). by apply subseteq_union_1_L.
Qed.

Lemma get_all_ips_from_cidr_array_absorbs_witness :
  expansion "185.56.64.0/24" ⊆ expansion "185.56.64.0/22"
  ∧ get_all_ips_from_cidr_array [ "185.56.64.0/24"; "185.56.64.0/22" ]
    = get_all_ips_from_cidr "185.56.64.0/22"
  ∧ get_all_ips_from_cidr_array [ "185.56.64.0/22"; "185.56.64.0/24" ]
    = get_all_ips_from_cidr "185.56.64.0/22".
Proof.
  apply (get_all_ips_from_cidr_array_absorbs _ _
           (Network 3107471360 4294967040 24) (Network 3107471360 4294966272 22)).
  - vm_compute. reflexivity.
  - vm_compute. reflexivity.
  - simpl. lia.
  - unfold in_span. simpl. lia.
Defined.

(** *** The text of an address is unique *)

Section canonical.

Lemma join_cons sep x l :
  l ≠ [] → PyStr.join sep (x :: l) = x +:+ sep +:+ PyStr.join sep l.
Proof. by destruct l. Qed.

Lemma join_split (sep : ascii) (s : string) :
  PyStr.join (String sep "") (PyStr.split sep s) = s.
Proof.
  induction s as [|c s IH]; [done|]. cbn [PyStr.split].
  pose proof (split_nonempty sep s) as Hne.
  destruct (Ascii.eqb_spec c sep) as [->|Hc].
  - rewrite join_cons, IH by done. done.
  - destruct (PyStr.split sep s) as [|h t]; [done|].
    destruct t as [|h' t]; [simpl in *; by rewrite IH|].
    rewrite join_cons in IH |- * by done. by rewrite str_app_cons, IH.
Qed.

Lemma is_digit_chars c : PyStr.is_digit c = true → c ∈ digit_chars.
Proof.
  destruct c as [[] [] [] [] [] [] [] []]; intros H; try discriminate H;
    unfold digit_chars; rewrite !elem_of_cons; tauto.
Qed.

Lemma digit_strings_S n :
  digit_strings (S n) = c ← digit_chars; s ← digit_strings n; [ String c s ].
Proof. reflexivity. Qed.

Lemma elem_of_digit_strings s :
  PyStr.all_digits s = true → s ∈ digit_strings (String.length s).
Proof.
  induction s as [|c s IH]; [intros _; left|].
  cbn [PyStr.all_digits]. intros [Hc Hs]%andb_true_iff.
  change (String.length (String c s)) with (S (String.length s)).
  rewrite digit_strings_S.
  apply list_elem_of_bind. exists c. split; [|by apply is_digit_chars].
  apply list_elem_of_bind. exists s. split; [left|by apply IH].
Qed.

Lemma octet_text_table :
  forallb octet_text_row (digit_strings 1 ++ digit_strings 2 ++ digit_strings 3)
  = true.
Proof. vm_compute. reflexivity. Qed.

(** An octet text that parses is the decimal print of its value. *)
Lemma _parse_octet_canonical s b : _parse_octet s = Ok b → s = PyStr.str b.
Proof.
  intros Hs.
  assert (Hin : s ∈ digit_strings 1 ++ digit_strings 2 ++ digit_strings 3).
  { unfold _parse_octet in Hs.
    destruct (String.eqb_spec s "") as [|Hne]; [done|].
    destruct (negb (PyStr.isascii_isdigit s)) eqn:Hd; [done|].
    destruct (3 <? String.length s)%nat eqn:Hlen; [done|].
    apply negb_false_iff in Hd. apply Nat.ltb_ge in Hlen.
    assert (Hall : PyStr.all_digits s = true) by by destruct s.
    apply elem_of_digit_strings in Hall.
    destruct s as [|c1 [|c2 [|c3 [|c4 s]]]]; [done|..|simpl in Hlen; lia];
      rewrite !elem_of_app; auto. }
  pose proof octet_text_table as Ht. rewrite forallb_forall in Ht.
  apply list_elem_of_In, Ht in Hin. unfold octet_text_row in Hin.
  rewrite Hs in Hin. by apply String.eqb_eq in Hin.
Qed.

Lemma to_bytes4_from_bytes b0 b1 b2 b3 :
  0 ≤ b0 ≤ 255 → 0 ≤ b1 ≤ 255 → 0 ≤ b2 ≤ 255 → 0 ≤ b3 ≤ 255 →
  to_bytes4 (256 * (256 * (256 * (256 * 0 + b0) + b1) + b2) + b3)
  = [ b0; b1; b2; b3 ].
Proof.
  intros. unfold to_bytes4. change 255 with (Z.ones 8).
  rewrite !Z.land_ones, !Z.shiftr_div_pow2 by lia.
  change (2 ^ 8) with 256. change (2 ^ 16) with 65536.
  change (2 ^ 24) with 16777216.
  repeat f_equal; Z.to_euclidean_division_equations; lia.
Qed.

(** An address text that parses is the print of its integer: the text of an
    address is unique. *)
Lemma IPv4Address_canonical ip n :
  IPv4Address ip = Ok n → ip = _string_from_ip_int n.
Proof.
  unfold IPv4Address. destruct (PyStr.contains "/" ip); [done|].
  unfold _ip_int_from_string. destruct (String.eqb ip ""); [done|].
  pose proof (join_split "." ip) as Hjoin.
  destruct (PyStr.split "." ip) as [|o0 [|o1 [|o2 [|o3 [|o4 l]]]]]; try done.
  cbn [length Nat.eqb negb from_bytes_map].
  destruct (_parse_octet o0) as [b0|] eqn:H0; [|by destruct e].
  cbn [mbind result_bind].
  destruct (_parse_octet o1) as [b1|] eqn:H1; [|by destruct e].
  cbn [mbind result_bind].
  destruct (_parse_octet o2) as [b2|] eqn:H2; [|by destruct e].
  cbn [mbind result_bind].
  destruct (_parse_octet o3) as [b3|] eqn:H3; [|by destruct e].
  cbn [mbind result_bind try_except]. intros [= <-].
  unfold _string_from_ip_int.
  rewrite to_bytes4_from_bytes by eauto using _parse_octet_Ok.
  cbn [map].
  by rewrite <- (_parse_octet_canonical _ _ H0), <- (_parse_octet_canonical _ _ H1),
    <- (_parse_octet_canonical _ _ H2), <- (_parse_octet_canonical _ _ H3).
Qed.

End canonical.

(** *** The expansion and the search *)

Section agreement.

Lemma expansion_iff_block_matches B net ip :
  IPv4Network B = Ok net → ip ∈ expansion B ↔ block_matches ip B = true.
Proof.
  intros Hnet. rewrite (elem_of_expansion _ _ _ Hnet). split.
  - intros (n & _ & Hip & Hspan). by apply (block_matches_span ip B net n).
  - intros Hm. destruct (IPv4Address ip) as [n|] eqn:Hip.
    + exists n. split; [by apply IPv4Address_canonical|]. split; [done|].
      by apply (block_matches_span ip B net n).
    + unfold block_matches in Hm. by rewrite Hnet, Hip in Hm.
Qed.

Lemma IPv4Network_plain_address ip n :
  IPv4Address ip = Ok n → IPv4Network ip = Ok (Network n 4294967295 32).
Proof.
  intros Hip. pose proof (IPv4Address_Ok _ _ Hip) as Hn.
  assert (Hslash : PyStr.contains "/" ip = false).
  { unfold IPv4Address in Hip. by destruct (PyStr.contains "/" ip). }
  unfold IPv4Network, _split_addr_prefix, _split_optional_netmask.
  rewrite (split_no_sep _ _ Hslash). cbn [length Nat.ltb Nat.leb mbind result_bind].
  rewrite Hip. cbn [mbind result_bind].
  change (_make_netmask (MaskInt _max_prefixlen))
    with (@Ok (Z * Z) (4294967295, 32)).
  cbn [mbind result_bind].
  change 4294967295 with (Z.ones 32). rewrite Z.land_ones by lia.
  rewrite Z.mod_small by lia. by rewrite Z.eqb_refl.
Qed.

End agreement.

(** X13. The two readings of a block agree: a string is in the set
    [get_all_ips_from_cidr B] exactly when the membership test of the search
    accepts it for [B], so the search of a document with the one block [B]
    returns the category for the members of the expansion and nothing for
    every other string.  This rests on [_parse_octet] refusing leading zeros,
    as [ipaddress] does from CPython 3.9.5 on: an address has one text. *)
Theorem expansion_agrees_with_search (B : string) (net : network) (nm : string) :
  IPv4Network B = Ok net →
  ∃ ips,
    get_all_ips_from_cidr B = Ok ips
    ∧ ∀ ip,
        (ip ∈ ips ↔ block_matches ip B = true)
        ∧ reverse_search_ip_in_azure ip
            (AzureInfo [ Category nm (Properties [ B ]) ])
          = Ok (if decide (ip ∈ ips) then [ Category nm (Properties [ B ]) ]
                else []).
Proof.
  intros Hnet. exists (expansion B). split; [by eapply expansion_Ok|].
  intros ip. pose proof (expansion_iff_block_matches B net ip Hnet) as Hiff.
  split; [done|].
  rewrite reverse_search_ip_in_azure_scannable.
  2:{ repeat constructor. unfold block_scannable. by rewrite Hnet. }
  cbn [values flat_map]. unfold hits, blocks. cbn [properties addressPrefixes].
  rewrite app_nil_r.
  destruct (block_matches ip B) eqn:Hm.
  - rewrite filter_cons_True by done. rewrite decide_True by by apply Hiff. done.
  - rewrite filter_cons_False by by rewrite Hm.
    rewrite decide_False; [done|]. intros Hin. apply Hiff in Hin. done.
Qed.

Lemma expansion_agrees_with_search_witness :
  ∃ ips,
    get_all_ips_from_cidr "10.1.2.0/24" = Ok ips
    ∧ ∀ ip,
        (ip ∈ ips ↔ block_matches ip "10.1.2.0/24" = true)
        ∧ reverse_search_ip_in_azure ip
            (AzureInfo [ Category "AzureCloud" (Properties [ "10.1.2.0/24" ]) ])
          = Ok (if decide (ip ∈ ips)
                then [ Category "AzureCloud" (Properties [ "10.1.2.0/24" ]) ]
                else []).
Proof.
  apply (expansion_agrees_with_search "10.1.2.0/24"
           (Network 167838208 4294967040 24)).
  vm_compute. reflexivity.
Defined.

(** X14. A plain address, without a slash, is a block of its own:
    [get_all_ips_from_cidr] returns the set with that one string (the text
    of an address being unique, see [IPv4Address_canonical]). *)
Theorem get_all_ips_from_cidr_plain_address (ip : string) (n : Z) :
  IPv4Address ip = Ok n → get_all_ips_from_cidr ip = Ok {[ ip ]}.
Proof.
  intros Hip. pose proof (IPv4Address_Ok _ _ Hip) as Hn.
  rewrite (get_all_ips_from_cidr_Ok _ _ (IPv4Network_plain_address _ _ Hip)).
  f_equal. unfold iter, range, broadcast_address, hostmask.
  cbn [network_address netmask].
  change (Z.lxor 4294967295 _ALL_ONES) with 0. rewrite Z.lor_0_r.
  replace (n + 1 - n) with 1 by lia.
  rewrite seqZ_cons, seqZ_nil by lia.
  cbn [fmap list_fmap]. rewrite list_to_set_singleton_L.
  by rewrite <- (IPv4Address_canonical _ _ Hip).
Qed.

Lemma get_all_ips_from_cidr_plain_address_witness :
  get_all_ips_from_cidr "185.56.64.7" = Ok {[ "185.56.64.7" ]}.
Proof.
  apply (get_all_ips_from_cidr_plain_address _ 3107471367).
  vm_compute. reflexivity.
Defined.

(** *** The static groups *)

Section groups.

Lemma expansion_subset B1 B2 net1 net2 :
  IPv4Network B1 = Ok net1 → IPv4Network B2 = Ok net2 →
  (∀ n, in_span net1 n → in_span net2 n) →
  expansion B1 ⊆ expansion B2.
Proof.
  intros H1 H2 Hin. apply elem_of_subseteq. intros s.
  rewrite (elem_of_expansion _ _ _ H1), (elem_of_expansion _ _ _ H2).
  intros (n & ? & ? & ?). exists n. auto.
Qed.

Lemma expansion_disjoint B1 B2 net1 net2 :
  IPv4Network B1 = Ok net1 → IPv4Network B2 = Ok net2 →
  (∀ n, in_span net1 n → ¬ in_span net2 n) →
  expansion B1 ## expansion B2.
Proof.
  intros H1 H2 Hout. apply elem_of_disjoint. intros s.
  rewrite (elem_of_expansion _ _ _ H1), (elem_of_expansion _ _ _ H2).
  intros (n & _ & Hn & Hspan) (n' & _ & Hn' & Hspan').
  assert (n' = n) as -> by congruence. by apply (Hout n).
Qed.

Lemma size_expansion B net :
  IPv4Network B = Ok net →
  Z.of_nat (size (expansion B)) = 2 ^ (32 - _prefixlen net).
Proof.
  intros Hnet.
  destruct (get_all_ips_from_cidr_members _ _ Hnet) as (ips & Hips & Hsize & _).
  unfold expansion. by rewrite Hips.
Qed.

(** Expanding any listing of a set of valid blocks gives the union of the
    expansions of its members. *)
Lemma array_of_listing (l : list string) (X : gset string) :
  list_to_set l = X → (∀ B, B ∈ X → valid_block B) →
  ∃ ips, get_all_ips_from_cidr_array l = Ok ips
         ∧ ∀ s, s ∈ ips ↔ ∃ B, B ∈ X ∧ s ∈ expansion B.
Proof.
  intros <- Hv. exists (⋃ (expansion <$> l)). split.
  - apply get_all_ips_from_cidr_array_Ok, Forall_forall. intros B HB.
    apply Hv, elem_of_list_to_set. done.
  - intros s. rewrite elem_of_union_list. split.
    + intros (Y & (B & -> & HB)%list_elem_of_fmap & Hs).
      exists B. by rewrite elem_of_list_to_set.
    + intros (B & HB%elem_of_list_to_set & Hs). exists (expansion B).
      split; [|done]. apply list_elem_of_fmap. eauto.
Qed.

End groups.

Ltac network_of B H :=
  let r := eval vm_compute in (IPv4Network B) in
  assert (H : IPv4Network B = r) by (vm_compute; reflexivity).

Ltac span_arith :=
  intros ?; unfold in_span; cbn [network_address _prefixlen];
  change (2 ^ (32 - 22)) with 1024; change (2 ^ (32 - 24)) with 256; lia.

Ltac inside s Hs B big Hbig :=
  let H := fresh "Hnet" in
  network_of B H;
  exact (expansion_subset B big _ _ H Hbig ltac:(span_arith) s Hs).

Lemma static_groups_valid B : B ∈ T2_EU ∪ T2_US → valid_block B.
Proof.
  unfold T2_EU, T2_US.
  rewrite elem_of_union, !elem_of_list_to_set, !elem_of_cons, !elem_of_nil.
  intros H. unfold valid_block.
  repeat (destruct H as [H|H]);
    first [ subst B; vm_compute; reflexivity | destruct H ].
Qed.

Lemma T2_EU_expansion s :
  (∃ B, B ∈ T2_EU ∧ s ∈ expansion B) ↔ s ∈ expansion "185.56.64.0/22".
Proof.
  network_of "185.56.64.0/22" Hbig. split.
  - intros (B & HB & Hs). unfold T2_EU in HB.
    rewrite elem_of_list_to_set, !elem_of_cons, elem_of_nil in HB.
    repeat (destruct HB as [HB|HB]); [..|destruct HB]; try subst B.
    + inside s Hs "185.56.64.0/24" "185.56.64.0/22" Hbig.
    + exact Hs.
    + inside s Hs "185.56.65.0/24" "185.56.64.0/22" Hbig.
    + inside s Hs "185.56.66.0/24" "185.56.64.0/22" Hbig.
    + inside s Hs "185.56.67.0/24" "185.56.64.0/22" Hbig.
  - intros Hs. exists "185.56.64.0/22". split; [|done].
    unfold T2_EU. rewrite elem_of_list_to_set, !elem_of_cons. tauto.
Qed.

Lemma T2_US_expansion s :
  (∃ B, B ∈ T2_US ∧ s ∈ expansion B) ↔
  s ∈ expansion "104.255.104.0/22" ∪ expansion "192.81.240.0/22"
      ∪ expansion "192.81.244.0/22" ∪ expansion "198.133.210.0/24".
Proof.
  network_of "104.255.104.0/22" Ha. network_of "192.81.240.0/22" Hb.
  network_of "192.81.244.0/22" Hc.
  rewrite !elem_of_union. split.
  - intros (B & HB & Hs). unfold T2_US in HB.
    rewrite elem_of_list_to_set, !elem_of_cons, elem_of_nil in HB.
    repeat (destruct HB as [HB|HB]); [..|destruct HB]; try subst B.
    + left; left; left. inside s Hs "104.255.104.0/24" "104.255.104.0/22" Ha.
    + left; left; left. exact Hs.
    + left; left; left. inside s Hs "104.255.105.0/24" "104.255.104.0/22" Ha.
    + left; left; left. inside s Hs "104.255.106.0/24" "104.255.104.0/22" Ha.
    + left; left; left. inside s Hs "104.255.107.0/24" "104.255.104.0/22" Ha.
    + left; left; right. inside s Hs "192.81.240.0/24" "192.81.240.0/22" Hb.
    + left; left; right. exact Hs.
    + left; left; right. inside s Hs "192.81.241.0/24" "192.81.240.0/22" Hb.
    + left; left; right. inside s Hs "192.81.242.0/24" "192.81.240.0/22" Hb.
    + left; left; right. inside s Hs "192.81.243.0/24" "192.81.240.0/22" Hb.
    + left; right. inside s Hs "192.81.244.0/24" "192.81.244.0/22" Hc.
    + left; right. exact Hs.
    + left; right. inside s Hs "192.81.245.0/24" "192.81.244.0/22" Hc.
    + left; right. inside s Hs "192.81.246.0/24" "192.81.244.0/22" Hc.
    + left; right. inside s Hs "192.81.247.0/24" "192.81.244.0/22" Hc.
    + right. exact Hs.
  - unfold T2_US.
    intros [[[Hs|Hs]|Hs]|Hs];
      [exists "104.255.104.0/22"|exists "192.81.240.0/22"
      |exists "192.81.244.0/22"|exists "198.133.210.0/24"];
      (split; [|exact Hs]); rewrite elem_of_list_to_set, !elem_of_cons; tauto.
Qed.

Lemma T2_US_size :
  size (expansion "104.255.104.0/22" ∪ expansion "192.81.240.0/22"
        ∪ expansion "192.81.244.0/22" ∪ expansion "198.133.210.0/24")
  = 3328%nat.
Proof.
  network_of "104.255.104.0/22" Ha. network_of "192.81.240.0/22" Hb.
  network_of "192.81.244.0/22" Hc. network_of "198.133.210.0/24" Hd.
  assert (HAB : expansion "104.255.104.0/22" ## expansion "192.81.240.0/22").
  { refine (expansion_disjoint _ _ _ _ Ha Hb _). span_arith. }
  assert (HAC : expansion "104.255.104.0/22" ## expansion "192.81.244.0/22").
  { refine (expansion_disjoint _ _ _ _ Ha Hc _). span_arith. }
  assert (HAD : expansion "104.255.104.0/22" ## expansion "198.133.210.0/24").
  { refine (expansion_disjoint _ _ _ _ Ha Hd _). span_arith. }
  assert (HBC : expansion "192.81.240.0/22" ## expansion "192.81.244.0/22").
  { refine (expansion_disjoint _ _ _ _ Hb Hc _). span_arith. }
  assert (HBD : expansion "192.81.240.0/22" ## expansion "198.133.210.0/24").
  { refine (expansion_disjoint _ _ _ _ Hb Hd _). span_arith. }
  assert (HCD : expansion "192.81.244.0/22" ## expansion "198.133.210.0/24").
  { refine (expansion_disjoint _ _ _ _ Hc Hd _). span_arith. }
  pose proof (size_expansion _ _ Ha) as Sa. pose proof (size_expansion _ _ Hb) as Sb.
  pose proof (size_expansion _ _ Hc) as Sc. pose proof (size_expansion _ _ Hd) as Sd.
  cbn [_prefixlen] in Sa, Sb, Sc, Sd.
  change (2 ^ (32 - 22)) with 1024 in *. change (2 ^ (32 - 24)) with 256 in *.
  set (A := expansion "104.255.104.0/22") in *.
  set (B := expansion "192.81.240.0/22") in *.
  set (C := expansion "192.81.244.0/22") in *.
  set (D := expansion "198.133.210.0/24") in *.
  clearbody A B C D.
  rewrite !size_union.
  - lia.
  - done.
  - by apply disjoint_union_l.
  - apply disjoint_union_l. split; [by apply disjoint_union_l|done].
Qed.

(** X15. Every block of the two static groups is valid, and in both groups
    the 24-bit blocks lie inside the 22-bit blocks listed with them: in
    whatever order the set is listed, [T2_EU] expands to the 1024 addresses of
    185.56.64.0/22, and [T2_US] to the 3328 addresses of its three 22-bit
    blocks and 198.133.210.0/24. *)
Theorem static_groups_cover :
  (∀ B, B ∈ T2_EU ∪ T2_US → valid_block B)
  ∧ (∀ l, list_to_set l = T2_EU →
       ∃ ips, get_all_ips_from_cidr_array l = Ok ips
              ∧ ips = expansion "185.56.64.0/22"
              ∧ size ips = 1024%nat)
  ∧ (∀ l, list_to_set l = T2_US →
       ∃ ips, get_all_ips_from_cidr_array l = Ok ips
              ∧ ips = expansion "104.255.104.0/22" ∪ expansion "192.81.240.0/22"
                      ∪ expansion "192.81.244.0/22" ∪ expansion "198.133.210.0/24"
              ∧ size ips = 3328%nat).
Proof.
  split; [exact static_groups_valid|]. split.
  - intros l Hl.
    destruct (array_of_listing l T2_EU Hl) as (ips & Hips & Hmem).
    { intros B HB. apply static_groups_valid, elem_of_union. by left. }
    assert (Heq : ips = expansion "185.56.64.0/22").
    { apply set_eq. intros s. rewrite Hmem. apply T2_EU_expansion. }
    exists ips. split; [exact Hips|]. split; [exact Heq|].
    rewrite Heq. network_of "185.56.64.0/22" Hbig.
    apply Nat2Z.inj. rewrite (size_expansion _ _ Hbig). reflexivity.
  - intros l Hl.
    destruct (array_of_listing l T2_US Hl) as (ips & Hips & Hmem).
    { intros B HB. apply static_groups_valid, elem_of_union. by right. }
    assert (Heq : ips = expansion "104.255.104.0/22" ∪ expansion "192.81.240.0/22"
                        ∪ expansion "192.81.244.0/22" ∪ expansion "198.133.210.0/24").
    { apply set_eq. intros s. rewrite Hmem. apply T2_US_expansion. }
    exists ips. split; [exact Hips|]. split; [exact Heq|].
    rewrite Heq. apply T2_US_size.
Qed.

Lemma static_groups_cover_witness :
  ∃ ips,
    get_all_ips_from_cidr_array
      [ "185.56.67.0/24"; "185.56.64.0/24"; "185.56.66.0/24"; "185.56.64.0/22";
        "185.56.65.0/24"; "185.56.64.0/22" ]
    = Ok ips
    ∧ ips = expansion "185.56.64.0/22" ∧ size ips = 1024%nat.
Proof.
  apply (proj1 (proj2 static_groups_cover)).
  apply set_eq. intros B. unfold T2_EU.
  rewrite !elem_of_list_to_set, !elem_of_cons, !elem_of_nil. tauto.
Defined.
